(** * Server-side RPC facades of userver's gRPC driver

    Shallow embedding of [grpc/include/userver/ugrpc/server/rpc.hpp]:
    the four call facades [UnaryCall], [InputStream], [OutputStream] and
    [BidirectionalStream] built on [CallAnyBase].

    Every member function becomes a computation in a small monad that
    threads the facade's private fields and the trace of everything the
    call did to its collaborators (raw stream, logger, statistics scope,
    span, middleware hooks), and that ends in one of three ways: a normal
    return, a C++ exception leaving the function, or an abort. *)

From Stdlib Require Import List String Bool Arith Lia.
Import ListNotations.
Open Scope string_scope.
Open Scope list_scope.

(** ** gRPC vocabulary *)

(** [grpc::StatusCode]. *)
Inductive StatusCode : Type :=
| OK | CANCELLED | UNKNOWN | INVALID_ARGUMENT | DEADLINE_EXCEEDED
| NOT_FOUND | ALREADY_EXISTS | PERMISSION_DENIED | RESOURCE_EXHAUSTED
| FAILED_PRECONDITION | ABORTED | OUT_OF_RANGE | UNIMPLEMENTED
| INTERNAL | UNAVAILABLE | DATA_LOSS | UNAUTHENTICATED.

(** [grpc::Status]: a code and a message. *)
Record Status : Type := mkStatus {
  error_code : StatusCode;
  error_message : string
}.

(** [grpc::Status::ok()]. *)
Definition ok (status : Status) : bool :=
  match error_code status with OK => true | _ => false end.

(** [grpc::Status::OK]. *)
Definition Status_OK : Status := mkStatus OK "".

(** Modelled from the spec: [impl::kUnknownErrorStatus] is declared in
    async_methods.hpp, which is not among the sources; the spec calls it
    the unknown-error status recorded at scope exit. *)
Definition kUnknownErrorStatus : Status :=
  mkStatus UNKNOWN
    "The service method has exited unexpectedly, without providing a status".

(** [google::protobuf::Message], the type the hooks of [CallAnyBase] work
    on; a message is identified with its serialized contents. *)
Definition Message : Type := string.

(** [grpc::WriteOptions]; [write_options{}] has no buffer hint. *)
Record WriteOptions : Type := mkWriteOptions { buffer_hint : bool }.
Definition default_write_options : WriteOptions := mkWriteOptions false.

(** [enum class CallKind]. *)
Inductive CallKind : Type :=
| kUnaryCall | kRequestStream | kResponseStream | kBidirectionalStream.

(** ** What a call does to its collaborators *)

(** Operations issued to the raw stream through the [impl::] helpers. *)
Inductive RawOp : Type :=
| OpRead
| OpWrite (response : Message) (options : WriteOptions)
| OpFinishWithResponse (response : Message) (status : Status)
| OpFinish (status : Status)
| OpFinishWithError (status : Status)
| OpWriteAndFinish (response : Message) (options : WriteOptions)
                   (status : Status)
| OpSendInitialMetadata
| OpCancel
| OpCancelWithError.

Inductive Event : Type :=
| EvRaw (op : RawOp)
| EvLogFinish (status : Status)
| EvExplicitFinish (code : StatusCode)
| EvSpanStatus (status : Status)
| EvRequestHook (request : Message)
| EvResponseHook (response : Message).

Definition Trace : Type := list Event.

(** Exceptions that cross the facade. [RpcInterruptedError] derives from
    [RpcError]; a handler for the former does not catch the latter. *)
Inductive Exception : Type :=
| RpcInterruptedError
| RpcError
| HookRejected.

(** Ways a call aborts instead of returning. *)
Inductive Violation : Type :=
| InvariantViolated (message : string)
| AssertionFailed (expression : string).

(** ** The environment of a call

    Everything the header only declares or includes is an input of the
    model: the build flavour, the statically known message kinds, the
    middleware hooks and the way each raw-stream operation ends, which
    may depend on all that happened before it. *)

Inductive HookOutcome : Type :=
| HookOk (rewritten : Message)
| HookThrows (e : Exception).

Inductive ReadOutcome : Type :=
| ReadOk (request : Message)
| ReadEnd
| ReadThrows (e : Exception).

Record Env : Type := mkEnv {
  (** assertions compiled in: [UASSERT] is checked *)
  kEnableAssert : bool;
  (** [std::is_base_of_v<google::protobuf::Message, Request>] *)
  request_is_message : bool;
  (** [std::is_base_of_v<google::protobuf::Message, Response>] *)
  response_is_message : bool;
  request_hook : Message -> HookOutcome;
  response_hook : Message -> HookOutcome;
  raw_read : Trace -> ReadOutcome;
  raw_result : Trace -> RawOp -> option Exception
}.

(** ** The monad of member functions *)

Inductive Outcome (S A : Type) : Type :=
| Returned (a : A) (s : S) (t : Trace)
| Threw (e : Exception) (s : S) (t : Trace)
| Aborted (v : Violation) (s : S) (t : Trace).

Arguments Returned {S A} a s t.
Arguments Threw {S A} e s t.
Arguments Aborted {S A} v s t.

Definition M (S A : Type) : Type := S -> Trace -> Outcome S A.

Definition ret {S A : Type} (a : A) : M S A :=
  fun s t => Returned a s t.

Definition bind {S A B : Type} (m : M S A) (k : A -> M S B) : M S B :=
  fun s t =>
    match m s t with
    | Returned a s' t' => k a s' t'
    | Threw e s' t' => Threw e s' t'
    | Aborted v s' t' => Aborted v s' t'
    end.

Declare Scope rpc_scope.
Delimit Scope rpc_scope with rpc.
Notation "x <- m ;; k" := (bind m (fun x => k))
  (at level 61, m at next level, right associativity) : rpc_scope.
Notation "m ;; k" := (bind m (fun _ => k))
  (at level 61, right associativity) : rpc_scope.
Open Scope rpc_scope.

Definition get {S : Type} : M S S := fun s t => Returned s s t.
Definition put {S : Type} (s' : S) : M S unit := fun _ t => Returned tt s' t.
Definition emit {S : Type} (e : Event) : M S unit :=
  fun s t => Returned tt s (t ++ [e]).
Definition throw {S A : Type} (e : Exception) : M S A :=
  fun s t => Threw e s t.
Definition abort {S A : Type} (v : Violation) : M S A :=
  fun s t => Aborted v s t.

(** [try { body } catch (...) { handler }]: the handler sees the state
    and the trace the body left behind. *)
Definition try_catch {S A : Type} (body : M S A)
    (handler : Exception -> M S A) : M S A :=
  fun s t =>
    match body s t with
    | Threw e s' t' => handler e s' t'
    | out => out
    end.

Definition outcome_state {S A : Type} (out : Outcome S A) : S :=
  match out with
  | Returned _ s _ | Threw _ s _ | Aborted _ s _ => s
  end.

Definition outcome_trace {S A : Type} (out : Outcome S A) : Trace :=
  match out with
  | Returned _ _ t | Threw _ _ t | Aborted _ _ t => t
  end.

Definition is_aborted {S A : Type} (out : Outcome S A) : bool :=
  match out with Aborted _ _ _ => true | _ => false end.

(** ** Assertion macros of userver/utils/assert.hpp *)

(** Modelled from the spec: [UINVARIANT] is defined in
    userver/utils/assert.hpp, which is not among the sources; the spec
    makes a failed invariant fatal in every build. *)
Definition UINVARIANT {S : Type} (condition : bool) (message : string)
  : M S unit :=
  if condition then ret tt else abort (InvariantViolated message).

(** Modelled from the spec: [UASSERT] is defined in
    userver/utils/assert.hpp, which is not among the sources; it is checked
    only when assertions are compiled in. *)
Definition UASSERT {S : Type} (env : Env) (condition : bool)
    (expression : string) : M S unit :=
  if kEnableAssert env
  then if condition then ret tt else abort (AssertionFailed expression)
  else ret tt.

(** ** Helpers of [CallAnyBase] and of namespace [impl]

    The call name every helper receives only labels error reports and is
    left out. *)

Module CallAnyBase.
Section WithEnv.
Variable env : Env.
Context {S : Type}.

(** Modelled from the spec: [LogFinish] is defined outside the header; it
    writes the one structured finish line of the call. *)
Definition LogFinish (status : Status) : M S unit :=
  emit (EvLogFinish status).

(** Modelled from the spec: [GetStatistics().OnExplicitFinish(code)], of
    statistics_scope.hpp, which is not among the sources; the terminal
    status event of the statistics scope. *)
Definition OnExplicitFinish (code : StatusCode) : M S unit :=
  emit (EvExplicitFinish code).

(** Modelled from the spec: [ugrpc::impl::UpdateSpanWithStatus(GetSpan(),
    status)], of span.hpp, which is not among the sources; the status
    update of the tracing span. *)
Definition UpdateSpanWithStatus (status : Status) : M S unit :=
  emit (EvSpanStatus status).

(** Modelled from the spec: [ApplyRequestHook] is defined outside the
    header; the middleware may rewrite the message or reject the call
    by raising. The message is changed in place in the source; here the
    rewritten message is returned. *)
Definition ApplyRequestHook (request : Message) : M S Message :=
  fun s t =>
    match request_hook env request with
    | HookOk request' => Returned request' s (t ++ [EvRequestHook request])
    | HookThrows e => Threw e s (t ++ [EvRequestHook request])
    end.

(** Modelled from the spec: [ApplyResponseHook], as [ApplyRequestHook]. *)
Definition ApplyResponseHook (response : Message) : M S Message :=
  fun s t =>
    match response_hook env response with
    | HookOk response' =>
        Returned response' s (t ++ [EvResponseHook response])
    | HookThrows e => Threw e s (t ++ [EvResponseHook response])
    end.
End WithEnv.
End CallAnyBase.

Module impl.
Section WithEnv.
Variable env : Env.
Context {S : Type}.

(** Modelled from the spec: the helpers of async_methods.hpp, which is
    not among the sources, hand one operation to the raw stream and wait
    for it; a transport failure reaches the caller as an exception. *)
Definition raw_call (op : RawOp) : M S unit :=
  fun s t =>
    match raw_result env t op with
    | None => Returned tt s (t ++ [EvRaw op])
    | Some e => Threw e s (t ++ [EvRaw op])
    end.

(** Modelled from the spec: [impl::Finish(stream, response, status,
    call_name)], the raw [finish(message, status)]. *)
Definition FinishWithResponse (response : Message) (status : Status)
  : M S unit := raw_call (OpFinishWithResponse response status).

(** Modelled from the spec: [impl::Finish(stream, status, call_name)],
    the raw [finish(status)]. *)
Definition Finish (status : Status) : M S unit :=
  raw_call (OpFinish status).

(** Modelled from the spec: [impl::FinishWithError(stream, status,
    call_name)], the raw finish of a single-response call without a
    response. *)
Definition FinishWithError (status : Status) : M S unit :=
  raw_call (OpFinishWithError status).

(** Modelled from the spec: [impl::Write(stream, response, write_options,
    call_name)], the raw [write(message, options)]. *)
Definition Write (response : Message) (options : WriteOptions)
  : M S unit := raw_call (OpWrite response options).

(** Modelled from the spec: [impl::WriteAndFinish(stream, response,
    write_options, status, call_name)], the raw
    [write_and_finish(message, options, status)]. *)
Definition WriteAndFinish (response : Message) (options : WriteOptions)
    (status : Status) : M S unit :=
  raw_call (OpWriteAndFinish response options status).

(** Modelled from the spec: the send of the stream-opening metadata. *)
Definition SendInitialMetadata : M S unit := raw_call OpSendInitialMetadata.

(** Modelled from the spec: [impl::Cancel(stream, call_name)], the raw
    [cancel()]; best effort, it never raises. *)
Definition Cancel : M S unit := emit (EvRaw OpCancel).

(** Modelled from the spec: [impl::CancelWithError(stream, call_name)],
    the raw [cancel_with_error()]; best effort, it never raises. *)
Definition CancelWithError : M S unit := emit (EvRaw OpCancelWithError).

(** Modelled from the spec: [impl::Read(stream, request)], the raw
    [read(message)]; [Some] stands for [true] with the message stored in
    [request], [None] for [false]. Whether it can also raise is left to
    the environment. *)
Definition Read : M S (option Message) :=
  fun s t =>
    match raw_read env t with
    | ReadOk request => Returned (Some request) s (t ++ [EvRaw OpRead])
    | ReadEnd => Returned None s (t ++ [EvRaw OpRead])
    | ReadThrows e => Threw e s (t ++ [EvRaw OpRead])
    end.
End WithEnv.
End impl.

(** ** [UnaryCall<Response>] *)

Module UnaryCall.
Record t : Type := mk { is_finished_ : bool }.

(** The constructor: [is_finished_{false}]. *)
Definition init : t := mk false.

Definition IsFinished (c : t) : bool := is_finished_ c.

Section WithEnv.
Variable env : Env.

(** [~UnaryCall()]. *)
Definition destructor : M t unit :=
  c <- get ;;
  if negb (is_finished_ c)
  then impl.CancelWithError ;;
       CallAnyBase.LogFinish kUnknownErrorStatus
  else ret tt.

(** [Finish(Response& response)]; the rvalue overload forwards here. *)
Definition Finish (response : Message) : M t unit :=
  c <- get ;;
  UINVARIANT (negb (is_finished_ c)) "'Finish' called on a finished call" ;;
  put (mk true) ;;
  response' <- CallAnyBase.ApplyResponseHook env response ;;
  CallAnyBase.LogFinish Status_OK ;;
  impl.FinishWithResponse env response' Status_OK ;;
  CallAnyBase.OnExplicitFinish OK ;;
  CallAnyBase.UpdateSpanWithStatus Status_OK.

(** [FinishWithError(const grpc::Status& status)]. *)
Definition FinishWithError (status : Status) : M t unit :=
  c <- get ;;
  if IsFinished c then ret tt
  else
    put (mk true) ;;
    CallAnyBase.LogFinish status ;;
    impl.FinishWithError env status ;;
    CallAnyBase.OnExplicitFinish (error_code status) ;;
    CallAnyBase.UpdateSpanWithStatus status.
End WithEnv.
End UnaryCall.

(** ** [InputStream<Request, Response>] *)

Module InputStream.
Inductive State : Type := kOpen | kReadsDone | kFinished.

Record t : Type := mk { state_ : State }.

(** The constructor: [state_{State::kOpen}]. *)
Definition init : t := mk kOpen.

Definition State_eqb (a b : State) : bool :=
  match a, b with
  | kOpen, kOpen | kReadsDone, kReadsDone | kFinished, kFinished => true
  | _, _ => false
  end.

Definition IsFinished (c : t) : bool := State_eqb (state_ c) kFinished.

Section WithEnv.
Variable env : Env.

(** [~InputStream()]. *)
Definition destructor : M t unit :=
  c <- get ;;
  if negb (State_eqb (state_ c) kFinished)
  then impl.CancelWithError ;;
       CallAnyBase.LogFinish kUnknownErrorStatus
  else ret tt.

(** [Read(Request& request)]: the result pairs the returned flag with
    the contents of [request] after the call. *)
Definition Read (request : Message) : M t (bool * Message) :=
  c <- get ;;
  UINVARIANT (State_eqb (state_ c) kOpen)
    "'Read' called while the stream is half-closed for reads" ;;
  got <- impl.Read env ;;
  match got with
  | Some received =>
      request' <- CallAnyBase.ApplyRequestHook env received ;;
      ret (true, request')
  | None =>
      put (mk kReadsDone) ;;
      ret (false, request)
  end.

(** [Finish(Response& response)]; the rvalue overload forwards here. *)
Definition Finish (response : Message) : M t unit :=
  c <- get ;;
  UINVARIANT (negb (State_eqb (state_ c) kFinished))
    "'Finish' called on a finished stream" ;;
  put (mk kFinished) ;;
  let status := Status_OK in
  CallAnyBase.LogFinish status ;;
  response' <- CallAnyBase.ApplyResponseHook env response ;;
  impl.FinishWithResponse env response' status ;;
  CallAnyBase.OnExplicitFinish (error_code status) ;;
  CallAnyBase.UpdateSpanWithStatus status.

(** [FinishWithError(const grpc::Status& status)]. *)
Definition FinishWithError (status : Status) : M t unit :=
  UASSERT env (negb (ok status)) "!status.ok()" ;;
  c <- get ;;
  if IsFinished c then ret tt
  else
    put (mk kFinished) ;;
    CallAnyBase.LogFinish status ;;
    impl.FinishWithError env status ;;
    CallAnyBase.OnExplicitFinish (error_code status) ;;
    CallAnyBase.UpdateSpanWithStatus status.
End WithEnv.
End InputStream.

(** ** [OutputStream<Response>] *)

Module OutputStream.
Inductive State : Type := kNew | kOpen | kFinished.

Record t : Type := mk { state_ : State }.

(** The constructor: [state_{State::kNew}]. *)
Definition init : t := mk kNew.

Definition State_eqb (a b : State) : bool :=
  match a, b with
  | kNew, kNew | kOpen, kOpen | kFinished, kFinished => true
  | _, _ => false
  end.

Definition IsFinished (c : t) : bool := State_eqb (state_ c) kFinished.

Section WithEnv.
Variable env : Env.

(** Modelled from the spec: [impl::SendInitialMetadataIfNew(stream,
    call_name, state_)] is defined in async_methods.hpp, which is not
    among the sources; it moves a New stream to Open and sends the
    stream-opening metadata, and does nothing otherwise. *)
Definition SendInitialMetadataIfNew : M t unit :=
  c <- get ;;
  if State_eqb (state_ c) kNew
  then put (mk kOpen) ;; impl.SendInitialMetadata env
  else ret tt.

(** [~OutputStream()]. *)
Definition destructor : M t unit :=
  c <- get ;;
  if negb (State_eqb (state_ c) kFinished)
  then impl.Cancel ;;
       CallAnyBase.LogFinish kUnknownErrorStatus
  else ret tt.

(** [Write(Response& response)]; the rvalue overload forwards here. *)
Definition Write (response : Message) : M t unit :=
  c <- get ;;
  UINVARIANT (negb (State_eqb (state_ c) kFinished))
    "'Write' called on a finished stream" ;;
  SendInitialMetadataIfNew ;;
  let write_options := default_write_options in
  response' <- CallAnyBase.ApplyResponseHook env response ;;
  impl.Write env response' write_options.

(** [Finish()]. *)
Definition Finish : M t unit :=
  c <- get ;;
  UINVARIANT (negb (State_eqb (state_ c) kFinished))
    "'Finish' called on a finished stream" ;;
  put (mk kFinished) ;;
  let status := Status_OK in
  CallAnyBase.LogFinish status ;;
  impl.Finish env status ;;
  CallAnyBase.OnExplicitFinish OK ;;
  CallAnyBase.UpdateSpanWithStatus status.

(** [FinishWithError(const grpc::Status& status)]. *)
Definition FinishWithError (status : Status) : M t unit :=
  UASSERT env (negb (ok status)) "!status.ok()" ;;
  c <- get ;;
  if IsFinished c then ret tt
  else
    put (mk kFinished) ;;
    CallAnyBase.LogFinish status ;;
    impl.Finish env status ;;
    CallAnyBase.OnExplicitFinish (error_code status) ;;
    CallAnyBase.UpdateSpanWithStatus status.

(** [WriteAndFinish(Response& response)]; the rvalue overload forwards
    here. *)
Definition WriteAndFinish (response : Message) : M t unit :=
  c <- get ;;
  UINVARIANT (negb (State_eqb (state_ c) kFinished))
    "'WriteAndFinish' called on a finished stream" ;;
  put (mk kFinished) ;;
  let write_options := default_write_options in
  let status := Status_OK in
  CallAnyBase.LogFinish status ;;
  response' <- CallAnyBase.ApplyResponseHook env response ;;
  impl.WriteAndFinish env response' write_options status ;;
  CallAnyBase.OnExplicitFinish OK ;;
  CallAnyBase.UpdateSpanWithStatus status.

(** What a handler may ask of the stream, and a handler body as the
    sequence of its requests; it stops at the first request that does
    not return. *)
Inductive Request : Type :=
| DoWrite (response : Message)
| DoFinish
| DoFinishWithError (status : Status)
| DoWriteAndFinish (response : Message).

Definition perform (request : Request) : M t unit :=
  match request with
  | DoWrite response => Write response
  | DoFinish => Finish
  | DoFinishWithError status => FinishWithError status
  | DoWriteAndFinish response => WriteAndFinish response
  end.

Fixpoint handler (body : list Request) : M t unit :=
  match body with
  | [] => ret tt
  | request :: rest => perform request ;; handler rest
  end.
End WithEnv.
End OutputStream.

(** ** [BidirectionalStream<Request, Response>] *)

Module BidirectionalStream.
Record t : Type := mk { are_reads_done_ : bool; is_finished_ : bool }.

(** The constructor: [are_reads_done_{false}], [is_finished_{false}]. *)
Definition init : t := mk false false.

Definition set_are_reads_done (c : t) : t := mk true (is_finished_ c).
Definition set_is_finished (c : t) : t := mk (are_reads_done_ c) true.

Definition IsFinished (c : t) : bool := is_finished_ c.

Section WithEnv.
Variable env : Env.

(** [~BidirectionalStream()]. *)
Definition destructor : M t unit :=
  c <- get ;;
  if negb (is_finished_ c)
  then impl.Cancel ;;
       CallAnyBase.LogFinish kUnknownErrorStatus
  else ret tt.

(** [Read(Request& request)]: the result pairs the returned flag with
    the contents of [request] after the call. *)
Definition Read (request : Message) : M t (bool * Message) :=
  c <- get ;;
  UINVARIANT (negb (are_reads_done_ c))
    "'Read' called while the stream is half-closed for reads" ;;
  got <- impl.Read env ;;
  match got with
  | Some received =>
      request' <- (if request_is_message env
                   then CallAnyBase.ApplyRequestHook env received
                   else ret received) ;;
      ret (true, request')
  | None =>
      c' <- get ;;
      put (set_are_reads_done c') ;;
      ret (false, request)
  end.

(** The hook guarded by [if constexpr] in the writing functions. *)
Definition hook_if_message (response : Message) : M t Message :=
  if response_is_message env
  then CallAnyBase.ApplyResponseHook env response
  else ret response.

(** [Write(Response& response)]; the rvalue overload forwards here. *)
Definition Write (response : Message) : M t unit :=
  c <- get ;;
  UINVARIANT (negb (is_finished_ c)) "'Write' called on a finished stream" ;;
  let write_options := default_write_options in
  response' <- hook_if_message response ;;
  try_catch (impl.Write env response' write_options)
    (fun e =>
       match e with
       | RpcInterruptedError =>
           c' <- get ;;
           put (set_is_finished c') ;;
           throw e
       | _ => throw e
       end).

(** [Finish()]. *)
Definition Finish : M t unit :=
  c <- get ;;
  UINVARIANT (negb (is_finished_ c)) "'Finish' called on a finished stream" ;;
  put (set_is_finished c) ;;
  let status := Status_OK in
  CallAnyBase.LogFinish status ;;
  impl.Finish env status ;;
  CallAnyBase.OnExplicitFinish OK ;;
  CallAnyBase.UpdateSpanWithStatus status.

(** [FinishWithError(const grpc::Status& status)]. *)
Definition FinishWithError (status : Status) : M t unit :=
  UASSERT env (negb (ok status)) "!status.ok()" ;;
  c <- get ;;
  if IsFinished c then ret tt
  else
    put (set_is_finished c) ;;
    CallAnyBase.LogFinish status ;;
    impl.Finish env status ;;
    CallAnyBase.OnExplicitFinish (error_code status) ;;
    CallAnyBase.UpdateSpanWithStatus status.

(** [WriteAndFinish(Response& response)]; the rvalue overload forwards
    here. *)
Definition WriteAndFinish (response : Message) : M t unit :=
  c <- get ;;
  UINVARIANT (negb (is_finished_ c))
    "'WriteAndFinish' called on a finished stream" ;;
  put (set_is_finished c) ;;
  let write_options := default_write_options in
  let status := Status_OK in
  CallAnyBase.LogFinish status ;;
  response' <- hook_if_message response ;;
  impl.WriteAndFinish env response' write_options status ;;
  CallAnyBase.OnExplicitFinish (error_code status) ;;
  CallAnyBase.UpdateSpanWithStatus status.
End WithEnv.
End BidirectionalStream.

(** ** The four facades behind the interface of [CallAnyBase] *)

Definition Facade (kind : CallKind) : Type :=
  match kind with
  | kUnaryCall => UnaryCall.t
  | kRequestStream => InputStream.t
  | kResponseStream => OutputStream.t
  | kBidirectionalStream => BidirectionalStream.t
  end.

(** The virtual [IsFinished()]. *)
Definition IsFinished (kind : CallKind) : Facade kind -> bool :=
  match kind with
  | kUnaryCall => UnaryCall.IsFinished
  | kRequestStream => InputStream.IsFinished
  | kResponseStream => OutputStream.IsFinished
  | kBidirectionalStream => BidirectionalStream.IsFinished
  end.

(** The virtual [FinishWithError(status)]. *)
Definition FinishWithError (env : Env) (kind : CallKind) (status : Status)
  : M (Facade kind) unit :=
  match kind with
  | kUnaryCall => UnaryCall.FinishWithError env status
  | kRequestStream => InputStream.FinishWithError env status
  | kResponseStream => OutputStream.FinishWithError env status
  | kBidirectionalStream => BidirectionalStream.FinishWithError env status
  end.

(** [Finish] of each facade; the two that answer with a stream of
    responses take no payload. *)
Definition Finish (env : Env) (kind : CallKind) (response : Message)
  : M (Facade kind) unit :=
  match kind with
  | kUnaryCall => UnaryCall.Finish env response
  | kRequestStream => InputStream.Finish env response
  | kResponseStream => OutputStream.Finish env
  | kBidirectionalStream => BidirectionalStream.Finish env
  end.

(** The destructor of each facade. *)
Definition destructor (kind : CallKind) : M (Facade kind) unit :=
  match kind with
  | kUnaryCall => UnaryCall.destructor
  | kRequestStream => InputStream.destructor
  | kResponseStream => OutputStream.destructor
  | kBidirectionalStream => BidirectionalStream.destructor
  end.

(** ** Reading a trace *)

Definition is_raw (e : Event) : bool :=
  match e with EvRaw _ => true | _ => false end.

Definition is_cancellation (e : Event) : bool :=
  match e with
  | EvRaw OpCancel | EvRaw OpCancelWithError => true
  | _ => false
  end.

Definition is_metadata_send (e : Event) : bool :=
  match e with EvRaw OpSendInitialMetadata => true | _ => false end.

(** Terminal accounting: the log line, the statistics event and the span
    status. *)
Definition is_accounting (e : Event) : bool :=
  match e with
  | EvLogFinish _ | EvExplicitFinish _ | EvSpanStatus _ => true
  | _ => false
  end.

Definition count (p : Event -> bool) (t : Trace) : nat :=
  List.length (filter p t).

(** Operations the raw stream was asked to perform. *)
Definition transport_operations (t : Trace) : nat := count is_raw t.

Definition accounting_events (t : Trace) : Trace := filter is_accounting t.

(** Payloads handed to the raw stream, in order. *)
Fixpoint sent_messages (t : Trace) : list Message :=
  match t with
  | [] => []
  | EvRaw (OpWrite response _) :: rest
  | EvRaw (OpFinishWithResponse response _) :: rest
  | EvRaw (OpWriteAndFinish response _ _) :: rest =>
      response :: sent_messages rest
  | _ :: rest => sent_messages rest
  end.

(** Final statuses handed to the raw stream, in order. *)
Fixpoint sent_statuses (t : Trace) : list Status :=
  match t with
  | [] => []
  | EvRaw (OpFinishWithResponse _ status) :: rest
  | EvRaw (OpFinish status) :: rest
  | EvRaw (OpFinishWithError status) :: rest
  | EvRaw (OpWriteAndFinish _ _ status) :: rest =>
      status :: sent_statuses rest
  | _ :: rest => sent_statuses rest
  end.

(** The recorded result of a call: payloads and final statuses on the
    wire, and the terminal accounting in the order it was produced per
    sink. *)
Record Recorded : Type := mkRecorded {
  messages : list Message;
  statuses : list Status;
  log_lines : Trace;
  statistics : Trace;
  span : Trace
}.

Definition is_log (e : Event) : bool :=
  match e with EvLogFinish _ => true | _ => false end.
Definition is_statistics (e : Event) : bool :=
  match e with EvExplicitFinish _ => true | _ => false end.
Definition is_span (e : Event) : bool :=
  match e with EvSpanStatus _ => true | _ => false end.

Definition recorded (t : Trace) : Recorded :=
  mkRecorded (sent_messages t) (sent_statuses t)
    (filter is_log t) (filter is_statistics t) (filter is_span t).

(** ** Environments used as concrete inputs *)

Module Scenario.
(** Hooks leave messages alone, the client has half-closed, every
    raw-stream operation completes. *)
Definition calm (assertions : bool) : Env :=
  mkEnv assertions true true HookOk HookOk
    (fun _ => ReadEnd) (fun _ _ => None).

(** As [calm], with one request waiting to be read. *)
Definition one_request (request : Message) : Env :=
  mkEnv true true true HookOk HookOk
    (fun _ => ReadOk request) (fun _ _ => None).

(** The transport is interrupted: reads and writes raise
    [RpcInterruptedError]. *)
Definition interrupted : Env :=
  mkEnv true true true HookOk HookOk
    (fun _ => ReadThrows RpcInterruptedError)
    (fun _ op =>
       match op with
       | OpWrite _ _ => Some RpcInterruptedError
       | _ => None
       end).

(** The transport is interrupted and the raw read reports it the way
    it reports end-of-input, by a false flag. *)
Definition interrupted_quietly : Env :=
  mkEnv true true true HookOk HookOk
    (fun _ => ReadEnd)
    (fun _ op =>
       match op with
       | OpWrite _ _ => Some RpcInterruptedError
       | _ => None
       end).

(** Only the read direction is interrupted; writes still complete. *)
Definition read_interrupted : Env :=
  mkEnv true true true HookOk HookOk
    (fun _ => ReadThrows RpcInterruptedError) (fun _ _ => None).

Definition PERMISSION : Status := mkStatus PERMISSION_DENIED "no access".
End Scenario.

(** A transport on which no operation fails, and hooks that accept. *)
Definition reliable (env : Env) : Prop :=
  forall t op, raw_result env t op = None.

(** ** Handlers and the scope of a call

    A facade lives for the time of one handler invocation: the handler
    calls its member functions one after the other until one of them
    does not return, and the destructor runs when the scope is left,
    normally or by an exception. An abort ends the process; no
    destructor runs then. *)

Module Handler.
Inductive UnaryRequest : Type :=
| UnaryFinish (response : Message)
| UnaryFinishWithError (status : Status).

Inductive InputRequest : Type :=
| InputRead (request : Message)
| InputFinish (response : Message)
| InputFinishWithError (status : Status).

Inductive BidirectionalRequest : Type :=
| BidiRead (request : Message)
| BidiWrite (response : Message)
| BidiFinish
| BidiFinishWithError (status : Status)
| BidiWriteAndFinish (response : Message).

(** The public member functions of each facade. *)
Definition Request (kind : CallKind) : Type :=
  match kind with
  | kUnaryCall => UnaryRequest
  | kRequestStream => InputRequest
  | kResponseStream => OutputStream.Request
  | kBidirectionalStream => BidirectionalRequest
  end.

Definition perform (env : Env) (kind : CallKind)
  : Request kind -> M (Facade kind) unit :=
  match kind return Request kind -> M (Facade kind) unit with
  | kUnaryCall => fun request =>
      match request with
      | UnaryFinish response => UnaryCall.Finish env response
      | UnaryFinishWithError status => UnaryCall.FinishWithError env status
      end
  | kRequestStream => fun request =>
      match request with
      | InputRead buffer => _ <- InputStream.Read env buffer ;; ret tt
      | InputFinish response => InputStream.Finish env response
      | InputFinishWithError status => InputStream.FinishWithError env status
      end
  | kResponseStream => OutputStream.perform env
  | kBidirectionalStream => fun request =>
      match request with
      | BidiRead buffer => _ <- BidirectionalStream.Read env buffer ;; ret tt
      | BidiWrite response => BidirectionalStream.Write env response
      | BidiFinish => BidirectionalStream.Finish env
      | BidiFinishWithError status =>
          BidirectionalStream.FinishWithError env status
      | BidiWriteAndFinish response =>
          BidirectionalStream.WriteAndFinish env response
      end
  end.

Fixpoint handler (env : Env) (kind : CallKind) (body : list (Request kind))
  : M (Facade kind) unit :=
  match body with
  | [] => ret tt
  | request :: rest => perform env kind request ;; handler env kind rest
  end.

(** The handler body followed by the destructor of the facade. *)
Definition scope (env : Env) (kind : CallKind) (body : list (Request kind))
  : M (Facade kind) unit :=
  fun c t =>
    match handler env kind body c t with
    | Returned _ c' t' => destructor kind c' t'
    | Threw e c' t' =>
        match destructor kind c' t' with
        | Returned _ c'' t'' => Threw e c'' t''
        | out => out
        end
    | Aborted v c' t' => Aborted v c' t'
    end.
End Handler.

(** ** More ways to read a trace and a facade *)

(** Operations that end the raw stream: the finishing ones and the
    cancellations. *)
Definition is_closing (e : Event) : bool :=
  match e with
  | EvRaw (OpFinishWithResponse _ _) | EvRaw (OpFinish _)
  | EvRaw (OpFinishWithError _) | EvRaw (OpWriteAndFinish _ _ _)
  | EvRaw OpCancel | EvRaw OpCancelWithError => true
  | _ => false
  end.

(** Operations on the writing direction of the raw stream: all but the
    read. *)
Definition is_outbound (e : Event) : bool :=
  match e with
  | EvRaw OpRead => false
  | EvRaw _ => true
  | _ => false
  end.

(** What a call still owes its sinks: one terminal record while it is
    not finished. *)
Definition owed (kind : CallKind) (c : Facade kind) : nat :=
  if IsFinished kind c then 0 else 1.

Definition InputStream_rank (state : InputStream.State) : nat :=
  match state with
  | InputStream.kOpen => 0
  | InputStream.kReadsDone => 1
  | InputStream.kFinished => 2
  end.

Definition OutputStream_rank (state : OutputStream.State) : nat :=
  match state with
  | OutputStream.kNew => 0
  | OutputStream.kOpen => 1
  | OutputStream.kFinished => 2
  end.

(** [forward kind c c']: the fields of [c'] are those of [c] or later
    ones in the order of the enumerators; a flag that is set stays
    set. *)
Definition forward (kind : CallKind) : Facade kind -> Facade kind -> bool :=
  match kind return Facade kind -> Facade kind -> bool with
  | kUnaryCall => fun c c' =>
      implb (UnaryCall.is_finished_ c) (UnaryCall.is_finished_ c')
  | kRequestStream => fun c c' =>
      Nat.leb (InputStream_rank (InputStream.state_ c))
        (InputStream_rank (InputStream.state_ c'))
  | kResponseStream => fun c c' =>
      Nat.leb (OutputStream_rank (OutputStream.state_ c))
        (OutputStream_rank (OutputStream.state_ c'))
  | kBidirectionalStream => fun c c' =>
      implb (BidirectionalStream.are_reads_done_ c)
            (BidirectionalStream.are_reads_done_ c')
      && implb (BidirectionalStream.is_finished_ c)
               (BidirectionalStream.is_finished_ c')
  end.

(** What a run of accepted writes on an open server stream leaves in the
    trace, when the hook rewrites each response [r] to [f r]. *)
Definition written (f : Message -> Message) (responses : list Message)
  : Trace :=
  flat_map
    (fun r => [EvResponseHook r; EvRaw (OpWrite (f r) default_write_options)])
    responses.

(** ** Environments with failures *)

Module Failure.
(** Every finishing operation of the raw stream raises [RpcError]. *)
Definition finish_fails : Env :=
  mkEnv true true true HookOk HookOk (fun _ => ReadEnd)
    (fun _ op =>
       match op with
       | OpFinishWithResponse _ _ | OpFinish _ | OpFinishWithError _
       | OpWriteAndFinish _ _ _ => Some RpcError
       | _ => None
       end).

(** Writes raise [RpcError], which is not an interruption. *)
Definition write_fails : Env :=
  mkEnv true true true HookOk HookOk (fun _ => ReadEnd)
    (fun _ op =>
       match op with
       | OpWrite _ _ => Some RpcError
       | _ => None
       end).

(** The middleware rejects every response. *)
Definition hook_rejects : Env :=
  mkEnv true true true HookOk (fun _ => HookThrows HookRejected)
    (fun _ => ReadEnd) (fun _ _ => None).
End Failure.

(** * Properties *)

(** ** Proof steps shared by all facades *)

Ltac unfold_call :=
  cbv beta iota zeta delta
    [Finish FinishWithError destructor IsFinished Facade
     UnaryCall.Finish UnaryCall.FinishWithError UnaryCall.destructor
     UnaryCall.IsFinished UnaryCall.is_finished_
     InputStream.Finish InputStream.FinishWithError InputStream.destructor
     InputStream.IsFinished InputStream.Read InputStream.state_
     InputStream.State_eqb
     OutputStream.Finish OutputStream.FinishWithError
     OutputStream.destructor OutputStream.IsFinished OutputStream.Write
     OutputStream.WriteAndFinish OutputStream.SendInitialMetadataIfNew
     OutputStream.state_ OutputStream.State_eqb OutputStream.perform
     BidirectionalStream.Finish BidirectionalStream.FinishWithError
     BidirectionalStream.destructor BidirectionalStream.IsFinished
     BidirectionalStream.Read BidirectionalStream.Write
     BidirectionalStream.WriteAndFinish BidirectionalStream.hook_if_message
     BidirectionalStream.set_is_finished
     BidirectionalStream.set_are_reads_done
     BidirectionalStream.is_finished_ BidirectionalStream.are_reads_done_
     CallAnyBase.LogFinish CallAnyBase.OnExplicitFinish
     CallAnyBase.UpdateSpanWithStatus CallAnyBase.ApplyRequestHook
     CallAnyBase.ApplyResponseHook
     impl.raw_call impl.FinishWithResponse impl.Finish impl.FinishWithError
     impl.Write impl.WriteAndFinish impl.SendInitialMetadata impl.Cancel
     impl.CancelWithError impl.Read
     bind get put ret emit throw abort try_catch UINVARIANT UASSERT
     outcome_state outcome_trace is_aborted negb] in *.

(** Splits on whatever the environment decides next. *)
Ltac ask_env :=
  match goal with
  | |- context [raw_result ?env ?t ?op] =>
      destruct (raw_result env t op) eqn:?
  | |- context [response_hook ?env ?m] =>
      destruct (response_hook env m) eqn:?
  | |- context [request_hook ?env ?m] =>
      destruct (request_hook env m) eqn:?
  | |- context [raw_read ?env ?t] =>
      destruct (raw_read env t) eqn:?
  | |- context [kEnableAssert ?env] =>
      destruct (kEnableAssert env) eqn:?
  | |- context [response_is_message ?env] =>
      destruct (response_is_message env) eqn:?
  | |- context [request_is_message ?env] =>
      destruct (request_is_message env) eqn:?
  | |- context [ok ?status] =>
      destruct (ok status) eqn:?
  end.

Ltac tidy_trace := rewrite <- ?app_assoc; cbn [app].

Lemma count_app (p : Event -> bool) (t u : Trace) :
  count p (t ++ u) = count p t + count p u.
Proof. unfold count. now rewrite filter_app, length_app. Qed.

(** ** Scope exit *)

(** C1. For each of the four facades the destructor of a call that is
    not finished asks the raw stream for exactly one cancellation, which
    is its only transport operation, and records exactly one terminal
    accounting event, the log line with the unknown-error status; the
    destructor of a finished call does nothing at all. *)
Theorem destructor_cancels_unfinished_call_once :
  forall (kind : CallKind) (c : Facade kind) (t : Trace),
  exists added : Trace,
    destructor kind c t = Returned tt c (t ++ added) /\
    if IsFinished kind c
    then added = []
    else count is_cancellation added = 1 /\
         transport_operations added = 1 /\
         accounting_events added = [EvLogFinish kUnknownErrorStatus].
Proof.
  intros kind c t.
  destruct kind; cbn [Facade] in c.
  - destruct c as [[]].
    + exists []. rewrite app_nil_r. split; reflexivity.
    + exists [EvRaw OpCancelWithError; EvLogFinish kUnknownErrorStatus].
      unfold_call. tidy_trace. repeat split.
  - destruct c as [[]].
    + exists [EvRaw OpCancelWithError; EvLogFinish kUnknownErrorStatus].
      unfold_call. tidy_trace. repeat split.
    + exists [EvRaw OpCancelWithError; EvLogFinish kUnknownErrorStatus].
      unfold_call. tidy_trace. repeat split.
    + exists []. rewrite app_nil_r. split; reflexivity.
  - destruct c as [[]].
    + exists [EvRaw OpCancel; EvLogFinish kUnknownErrorStatus].
      unfold_call. tidy_trace. repeat split.
    + exists [EvRaw OpCancel; EvLogFinish kUnknownErrorStatus].
      unfold_call. tidy_trace. repeat split.
    + exists []. rewrite app_nil_r. split; reflexivity.
  - destruct c as [reads []].
    + exists []. rewrite app_nil_r. split; reflexivity.
    + exists [EvRaw OpCancel; EvLogFinish kUnknownErrorStatus].
      unfold_call. tidy_trace. repeat split.
Qed.

(** ** Finishing *)

(** The message of the invariant [Finish] checks first. *)
Definition Finish_invariant_message (kind : CallKind) : string :=
  match kind with
  | kUnaryCall => "'Finish' called on a finished call"
  | _ => "'Finish' called on a finished stream"
  end.

Lemma Finish_on_finished_call_aborts :
  forall env kind response (c : Facade kind) t,
    IsFinished kind c = true ->
    Finish env kind response c t =
      Aborted (InvariantViolated (Finish_invariant_message kind)) c t.
Proof.
  intros env kind response c t Hfin.
  destruct kind; cbn [Facade] in c.
  - destruct c as [[]]; unfold_call; [reflexivity | discriminate].
  - destruct c as [[]]; unfold_call; try discriminate; reflexivity.
  - destruct c as [[]]; unfold_call; try discriminate; reflexivity.
  - destruct c as [reads []]; unfold_call; [reflexivity | discriminate].
Qed.

Lemma Finish_from_unfinished_call :
  forall env kind response (c : Facade kind) t,
    IsFinished kind c = false ->
    is_aborted (Finish env kind response c t) = false /\
    IsFinished kind (outcome_state (Finish env kind response c t)) = true.
Proof.
  intros env kind response c t Hopen.
  destruct kind; cbn [Facade] in c.
  - destruct c as [[]]; unfold_call; [discriminate |].
    repeat ask_env; split; reflexivity.
  - destruct c as [[]]; unfold_call; try discriminate;
      repeat ask_env; split; reflexivity.
  - destruct c as [[]]; unfold_call; try discriminate;
      repeat ask_env; split; reflexivity.
  - destruct c as [reads []]; unfold_call; [discriminate |].
    repeat ask_env; split; reflexivity.
Qed.

Lemma Finish_returns_on_reliable_transport :
  forall env kind response response' (c : Facade kind) t,
    IsFinished kind c = false ->
    reliable env ->
    response_hook env response = HookOk response' ->
    exists c' t', Finish env kind response c t = Returned tt c' t'.
Proof.
  intros env kind response response' c t Hopen Hrel Hhook.
  destruct kind; cbn [Facade] in c.
  - destruct c as [[]]; unfold_call; [discriminate |].
    rewrite Hhook, Hrel. eauto.
  - destruct c as [[]]; unfold_call; try discriminate;
      rewrite Hhook, Hrel; eauto.
  - destruct c as [[]]; unfold_call; try discriminate;
      rewrite Hrel; eauto.
  - destruct c as [reads []]; unfold_call; [discriminate |].
    rewrite Hrel. eauto.
Qed.

Lemma FinishWithError_returns_finished :
  forall env kind status (c c' : Facade kind) t t',
    FinishWithError env kind status c t = Returned tt c' t' ->
    IsFinished kind c' = true.
Proof.
  intros env kind status c c' t t'.
  destruct kind; cbn [Facade] in c, c'.
  - destruct c as [[]]; unfold_call; repeat ask_env; intros H;
      inversion H; reflexivity.
  - destruct c as [[]]; unfold_call; repeat ask_env; intros H;
      inversion H; reflexivity.
  - destruct c as [[]]; unfold_call; repeat ask_env; intros H;
      inversion H; reflexivity.
  - destruct c as [reads []]; unfold_call; repeat ask_env; intros H;
      inversion H; reflexivity.
Qed.

(** C2. On a call that is already finished, [FinishWithError] of every
    facade leaves the call and the trace as they were: no transport
    operation, no statistics event, no span status, no log line; and
    with the non-success status the function is meant for it returns
    normally. *)
Theorem FinishWithError_on_finished_call_is_noop :
  forall env kind status (c : Facade kind) t,
    IsFinished kind c = true ->
    outcome_state (FinishWithError env kind status c t) = c /\
    outcome_trace (FinishWithError env kind status c t) = t /\
    (ok status = false ->
     FinishWithError env kind status c t = Returned tt c t).
Proof.
  intros env kind status c t Hfin.
  destruct kind; cbn [Facade] in c.
  - destruct c as [[]]; unfold_call; [| discriminate].
    repeat split.
  - destruct c as [[]]; unfold_call; try discriminate.
    destruct (kEnableAssert env), (ok status); repeat split;
      intros; discriminate.
  - destruct c as [[]]; unfold_call; try discriminate.
    destruct (kEnableAssert env), (ok status); repeat split;
      intros; discriminate.
  - destruct c as [reads []]; unfold_call; [| discriminate].
    destruct (kEnableAssert env), (ok status); repeat split;
      intros; discriminate.
Qed.

(** C3. For every facade, [Finish] on a call that is not finished never
    takes the fatal path and leaves the call finished, whether the raw
    stream completes the operation or raises; on a reliable transport
    with an accepting hook it returns. A further [Finish] then aborts on
    its invariant with the call and the trace untouched, hence without
    any accounting event, and so does a [Finish] that follows a
    [FinishWithError] that returned. *)
Theorem Finish_once_then_fatal :
  forall env kind response (c : Facade kind) t,
    IsFinished kind c = false ->
    let first := Finish env kind response c t in
    is_aborted first = false /\
    IsFinished kind (outcome_state first) = true /\
    (reliable env ->
     (exists response', response_hook env response = HookOk response') ->
     exists t', first = Returned tt (outcome_state first) t') /\
    (forall again t2,
       Finish env kind again (outcome_state first) t2 =
         Aborted (InvariantViolated (Finish_invariant_message kind))
           (outcome_state first) t2) /\
    (forall status c1 t1 again,
       FinishWithError env kind status c t = Returned tt c1 t1 ->
       Finish env kind again c1 t1 =
         Aborted (InvariantViolated (Finish_invariant_message kind)) c1 t1).
Proof.
  intros env kind response c t Hopen first.
  destruct (Finish_from_unfinished_call env kind response c t Hopen)
    as [Hlive Hfin].
  repeat split; trivial.
  - intros Hrel [response' Hhook].
    destruct (Finish_returns_on_reliable_transport
                env kind response response' c t Hopen Hrel Hhook)
      as (c' & t' & Hret).
    exists t'. subst first. rewrite Hret. reflexivity.
  - intros again t2. now apply Finish_on_finished_call_aborts.
  - intros status c1 t1 again Hret.
    apply Finish_on_finished_call_aborts.
    eapply FinishWithError_returns_finished; eassumption.
Qed.

(** ** Unary calls *)

(** C4. On an open unary call, when the response hook accepts the
    response and the raw stream completes the operation, [Finish]
    applies the hook, hands the response as the hook left it together
    with the success status to the raw stream, records one success event
    in the statistics scope and the success status in the span, and
    leaves the call finished. *)
Theorem UnaryCall_Finish_success :
  forall env (c : UnaryCall.t) t response response',
    UnaryCall.IsFinished c = false ->
    response_hook env response = HookOk response' ->
    raw_result env (t ++ [EvResponseHook response; EvLogFinish Status_OK])
      (OpFinishWithResponse response' Status_OK) = None ->
    UnaryCall.Finish env response c t =
      Returned tt (UnaryCall.mk true)
        (t ++ [EvResponseHook response;
               EvLogFinish Status_OK;
               EvRaw (OpFinishWithResponse response' Status_OK);
               EvExplicitFinish OK;
               EvSpanStatus Status_OK]).
Proof.
  intros env [[]] t response response' Hopen Hhook Hraw;
    [discriminate |].
  unfold_call. rewrite Hhook. tidy_trace. rewrite Hraw. tidy_trace.
  reflexivity.
Qed.

(** The error path of a unary call from the open state: the status is
    logged, sent and recorded once. *)
Lemma UnaryCall_FinishWithError_from_open :
  forall env t status,
    raw_result env (t ++ [EvLogFinish status]) (OpFinishWithError status)
      = None ->
    UnaryCall.FinishWithError env status UnaryCall.init t =
      Returned tt (UnaryCall.mk true)
        (t ++ [EvLogFinish status;
               EvRaw (OpFinishWithError status);
               EvExplicitFinish (error_code status);
               EvSpanStatus status]).
Proof.
  intros env t status Hraw.
  unfold UnaryCall.init. unfold_call. rewrite Hraw. tidy_trace.
  reflexivity.
Qed.

(** C9. [UnaryCall::FinishWithError] does not check its status: with
    assertions compiled in, the success status on an open unary call is
    accepted and the call is finished, logged and counted as a success
    through the error path, where [InputStream::FinishWithError],
    [OutputStream::FinishWithError] and
    [BidirectionalStream::FinishWithError] stop on [UASSERT(!status.ok())]
    before doing anything. *)
Theorem UnaryCall_FinishWithError_accepts_success_status :
  UnaryCall.FinishWithError (Scenario.calm true) Status_OK UnaryCall.init []
    = Returned tt (UnaryCall.mk true)
        [EvLogFinish Status_OK;
         EvRaw (OpFinishWithError Status_OK);
         EvExplicitFinish OK;
         EvSpanStatus Status_OK]
  /\ InputStream.FinishWithError (Scenario.calm true) Status_OK
       InputStream.init []
     = Aborted (AssertionFailed "!status.ok()") InputStream.init []
  /\ OutputStream.FinishWithError (Scenario.calm true) Status_OK
       OutputStream.init []
     = Aborted (AssertionFailed "!status.ok()") OutputStream.init []
  /\ BidirectionalStream.FinishWithError (Scenario.calm true) Status_OK
       BidirectionalStream.init []
     = Aborted (AssertionFailed "!status.ok()") BidirectionalStream.init [].
Proof. repeat split. Qed.

(** ** Client-streaming calls *)

(** C5. [InputStream::Read] in the open state: when the raw stream
    delivers a message and the request hook accepts it, the hook is
    applied, the function returns true and the stream stays open; at
    end-of-input the stream moves to reads-done and the function returns
    false, leaving [request] alone. In any other state, reads-done or
    finished, the invariant fails and nothing else happens. *)
Theorem InputStream_Read_contract :
  forall env (c : InputStream.t) t request,
    (InputStream.state_ c = InputStream.kOpen ->
     forall received request',
       raw_read env t = ReadOk received ->
       request_hook env received = HookOk request' ->
       InputStream.Read env request c t =
         Returned (true, request') (InputStream.mk InputStream.kOpen)
           (t ++ [EvRaw OpRead; EvRequestHook received])) /\
    (InputStream.state_ c = InputStream.kOpen ->
     raw_read env t = ReadEnd ->
     InputStream.Read env request c t =
       Returned (false, request) (InputStream.mk InputStream.kReadsDone)
         (t ++ [EvRaw OpRead])) /\
    (InputStream.state_ c <> InputStream.kOpen ->
     InputStream.Read env request c t =
       Aborted
         (InvariantViolated
            "'Read' called while the stream is half-closed for reads")
         c t).
Proof.
  intros env [state] t request. cbn [InputStream.state_].
  repeat split.
  - intros -> received request' Hread Hhook.
    unfold_call. rewrite Hread, Hhook. tidy_trace. reflexivity.
  - intros -> Hread. unfold_call. rewrite Hread. reflexivity.
  - intros Hstate. destruct state; [congruence | |]; reflexivity.
Qed.

(** ** Server-streaming calls *)

Lemma perform_metadata :
  forall env request (c : OutputStream.t) t,
    count is_metadata_send
      (outcome_trace (OutputStream.perform env request c t)) =
      count is_metadata_send t +
      match request, OutputStream.state_ c with
      | OutputStream.DoWrite _, OutputStream.kNew => 1
      | _, _ => 0
      end /\
    (forall c' t',
       OutputStream.perform env request c t = Returned tt c' t' ->
       OutputStream.state_ c' <> OutputStream.kNew).
Proof.
  intros env request [state] t.
  destruct request, state; unfold_call; repeat ask_env;
    (split;
     [ rewrite ?count_app; cbn; lia
     | intros c' t' H; inversion H; cbn; discriminate ]).
Qed.

Lemma handler_after_open :
  forall env body (c : OutputStream.t) t,
    OutputStream.state_ c <> OutputStream.kNew ->
    count is_metadata_send
      (outcome_trace (OutputStream.handler env body c t)) =
    count is_metadata_send t.
Proof.
  intros env body. induction body as [| request rest IH]; intros c t Hc.
  - reflexivity.
  - cbn [OutputStream.handler]. unfold bind.
    destruct (perform_metadata env request c t) as [Hcount Hstate].
    assert (Hzero :
      match request, OutputStream.state_ c with
      | OutputStream.DoWrite _, OutputStream.kNew => 1
      | _, _ => 0
      end = 0).
    { destruct request, c as [[]]; cbn in *; congruence. }
    rewrite Hzero, Nat.add_0_r in Hcount.
    destruct (OutputStream.perform env request c t) as [[] c' t' | |];
      cbn [outcome_trace] in *; trivial.
    rewrite IH; [assumption | eapply Hstate; reflexivity].
Qed.

(** C6, as the code has it. Over any handler body run on a stream in any
    state, the stream-opening metadata is sent once when the body starts
    with a [Write] on a stream that is still new, and not at all
    otherwise: later writes never send it again, and [Finish],
    [FinishWithError] and [WriteAndFinish] never send it, not even on a
    new stream. *)
Theorem metadata_sent_by_first_Write_only :
  forall env body (c : OutputStream.t) t,
    count is_metadata_send
      (outcome_trace (OutputStream.handler env body c t)) =
    count is_metadata_send t +
    match body, OutputStream.state_ c with
    | OutputStream.DoWrite _ :: _, OutputStream.kNew => 1
    | _, _ => 0
    end.
Proof.
  intros env body c t. destruct body as [| request rest].
  - destruct c as [[]]; symmetry; apply Nat.add_0_r.
  - cbn [OutputStream.handler]. unfold bind.
    destruct (perform_metadata env request c t) as [Hcount Hstate].
    transitivity
      (count is_metadata_send
         (outcome_trace (OutputStream.perform env request c t))).
    + destruct (OutputStream.perform env request c t) as [[] c' t' | |];
        cbn [outcome_trace]; trivial.
      apply handler_after_open. eapply Hstate; reflexivity.
    + destruct request, c as [[]]; exact Hcount.
Qed.

(** C6, as stated, fails: [Finish] on a new stream goes straight to the
    finished state and the opening metadata is never sent. *)
Lemma Finish_on_new_stream_sends_no_metadata :
  OutputStream.handler (Scenario.calm true) [OutputStream.DoFinish]
    OutputStream.init [] =
    Returned tt (OutputStream.mk OutputStream.kFinished)
      [EvLogFinish Status_OK; EvRaw (OpFinish Status_OK);
       EvExplicitFinish OK; EvSpanStatus Status_OK] /\
  count is_metadata_send
    (outcome_trace
       (OutputStream.handler (Scenario.calm true) [OutputStream.DoFinish]
          OutputStream.init [])) <> 1.
Proof. split; [reflexivity | cbn; discriminate]. Qed.

(** C7, as the code has it. On a reliable transport with an accepting
    hook, [WriteAndFinish] and [Write] followed by [Finish] both return
    and leave the stream finished with the same recorded result: the
    same payload and final status on the wire, the same log line,
    statistics event and span status. [WriteAndFinish] asks one
    operation of the raw stream; the separate calls ask two on an open
    stream and three on a new one, where the first write also sends the
    opening metadata. *)
Theorem WriteAndFinish_versus_Write_then_Finish :
  forall env (c : OutputStream.t) t response response',
    OutputStream.IsFinished c = false ->
    reliable env ->
    response_hook env response = HookOk response' ->
    exists separate combined : Trace,
      OutputStream.handler env
        [OutputStream.DoWrite response; OutputStream.DoFinish] c t =
        Returned tt (OutputStream.mk OutputStream.kFinished)
          (t ++ separate) /\
      OutputStream.WriteAndFinish env response c t =
        Returned tt (OutputStream.mk OutputStream.kFinished)
          (t ++ combined) /\
      recorded separate = recorded combined /\
      recorded combined =
        mkRecorded [response'] [Status_OK] [EvLogFinish Status_OK]
          [EvExplicitFinish OK] [EvSpanStatus Status_OK] /\
      transport_operations combined = 1 /\
      transport_operations separate =
        match OutputStream.state_ c with
        | OutputStream.kNew => 3
        | _ => 2
        end.
Proof.
  intros env [state] t response response' Hopen Hrel Hhook.
  destruct state; [| | discriminate].
  - exists [EvRaw OpSendInitialMetadata; EvResponseHook response;
            EvRaw (OpWrite response' default_write_options);
            EvLogFinish Status_OK; EvRaw (OpFinish Status_OK);
            EvExplicitFinish OK; EvSpanStatus Status_OK],
           [EvLogFinish Status_OK; EvResponseHook response;
            EvRaw (OpWriteAndFinish response' default_write_options
                     Status_OK);
            EvExplicitFinish OK; EvSpanStatus Status_OK].
    cbn [OutputStream.handler]. unfold_call.
    rewrite !Hrel, !Hhook, !Hrel. tidy_trace. repeat split.
  - exists [EvResponseHook response;
            EvRaw (OpWrite response' default_write_options);
            EvLogFinish Status_OK; EvRaw (OpFinish Status_OK);
            EvExplicitFinish OK; EvSpanStatus Status_OK],
           [EvLogFinish Status_OK; EvResponseHook response;
            EvRaw (OpWriteAndFinish response' default_write_options
                     Status_OK);
            EvExplicitFinish OK; EvSpanStatus Status_OK].
    cbn [OutputStream.handler]. unfold_call.
    rewrite !Hhook, !Hrel. tidy_trace. repeat split.
Qed.

(** C7, as stated, fails: on a new stream [Write] followed by [Finish]
    asks three operations of the raw stream, not two. *)
Lemma Write_then_Finish_on_new_stream_takes_three_operations :
  OutputStream.handler (Scenario.calm true)
    [OutputStream.DoWrite "event"; OutputStream.DoFinish]
    OutputStream.init [] =
    Returned tt (OutputStream.mk OutputStream.kFinished)
      [EvRaw OpSendInitialMetadata; EvResponseHook "event";
       EvRaw (OpWrite "event" default_write_options);
       EvLogFinish Status_OK; EvRaw (OpFinish Status_OK);
       EvExplicitFinish OK; EvSpanStatus Status_OK] /\
  transport_operations
    (outcome_trace
       (OutputStream.handler (Scenario.calm true)
          [OutputStream.DoWrite "event"; OutputStream.DoFinish]
          OutputStream.init [])) = 3 /\
  transport_operations
    (outcome_trace
       (OutputStream.WriteAndFinish (Scenario.calm true) "event"
          OutputStream.init [])) = 1.
Proof. repeat split. Qed.

(** ** Bidirectional calls *)

(** C8, as the code has it. [BidirectionalStream::Read] never touches the
    finished flag. When the raw read reports no message, which is all it
    can say of an end-of-input and of a broken transport alike, the
    function sets reads-done only and returns false; when the raw read
    raises, the failure reaches the caller with both flags as they were.
    A [Write] after such a [Read] on a call that was not finished is not
    rejected by its invariant. *)
Theorem BidirectionalStream_Read_leaves_finished_flag :
  forall env (c : BidirectionalStream.t) t request,
    BidirectionalStream.are_reads_done_ c = false ->
    let out := BidirectionalStream.Read env request c t in
    BidirectionalStream.is_finished_ (outcome_state out) =
      BidirectionalStream.is_finished_ c /\
    (raw_read env t = ReadEnd ->
     out = Returned (false, request)
             (BidirectionalStream.set_are_reads_done c)
             (t ++ [EvRaw OpRead])) /\
    (forall e, raw_read env t = ReadThrows e ->
     out = Threw e c (t ++ [EvRaw OpRead])) /\
    (BidirectionalStream.is_finished_ c = false ->
     forall response t',
       is_aborted
         (BidirectionalStream.Write env response (outcome_state out) t')
       = false).
Proof.
  intros env [reads finished] t request Hreads out.
  cbn [BidirectionalStream.are_reads_done_] in Hreads. subst reads.
  subst out. repeat split.
  - unfold_call. repeat ask_env; reflexivity.
  - intros Hread. unfold_call. rewrite Hread. reflexivity.
  - intros e Hread. unfold_call. rewrite Hread. reflexivity.
  - cbn [BidirectionalStream.is_finished_]. intros -> response t'.
    unfold_call. repeat ask_env; try reflexivity;
      match goal with e : Exception |- _ => destruct e; reflexivity end.
Qed.

(** C8, as stated, fails: an interruption raised by the raw read leaves
    the call unfinished and reads open, and the next [Write] is carried
    out on the raw stream. *)
Lemma Read_interruption_does_not_finish_the_call :
  BidirectionalStream.Read Scenario.read_interrupted ""
    BidirectionalStream.init [] =
    Threw RpcInterruptedError (BidirectionalStream.mk false false)
      [EvRaw OpRead] /\
  BidirectionalStream.IsFinished
    (outcome_state
       (BidirectionalStream.Read Scenario.read_interrupted ""
          BidirectionalStream.init [])) = false /\
  BidirectionalStream.Write Scenario.read_interrupted "pong"
    (BidirectionalStream.mk false false) [EvRaw OpRead] =
    Returned tt (BidirectionalStream.mk false false)
      [EvRaw OpRead; EvResponseHook "pong";
       EvRaw (OpWrite "pong" default_write_options)].
Proof. repeat split. Qed.

(** C10, as the code has it. When the raw write inside
    [BidirectionalStream::Write] raises [RpcInterruptedError], the call is
    marked finished before the failure reaches the caller. From then on
    the destructor does nothing, [Write], [Finish] and [WriteAndFinish]
    abort on their invariants, and [FinishWithError] with a non-success
    status returns without doing anything. *)
Theorem BidirectionalStream_Write_interrupted :
  forall env (c : BidirectionalStream.t) t response response' t1,
    BidirectionalStream.is_finished_ c = false ->
    BidirectionalStream.hook_if_message env response c t =
      Returned response' c t1 ->
    raw_result env t1 (OpWrite response' default_write_options) =
      Some RpcInterruptedError ->
    let c' := BidirectionalStream.set_is_finished c in
    BidirectionalStream.Write env response c t =
      Threw RpcInterruptedError c'
        (t1 ++ [EvRaw (OpWrite response' default_write_options)]) /\
    BidirectionalStream.IsFinished c' = true /\
    (forall t2, BidirectionalStream.destructor c' t2 = Returned tt c' t2) /\
    (forall again t2,
       BidirectionalStream.Write env again c' t2 =
         Aborted (InvariantViolated "'Write' called on a finished stream")
           c' t2 /\
       BidirectionalStream.Finish env c' t2 =
         Aborted (InvariantViolated "'Finish' called on a finished stream")
           c' t2 /\
       BidirectionalStream.WriteAndFinish env again c' t2 =
         Aborted
           (InvariantViolated
              "'WriteAndFinish' called on a finished stream")
           c' t2) /\
    (forall status t2,
       ok status = false ->
       BidirectionalStream.FinishWithError env status c' t2 =
         Returned tt c' t2).
Proof.
  intros env [reads finished] t response response' t1 Hopen Hhook Hraw c'.
  cbn [BidirectionalStream.is_finished_] in Hopen. subst finished.
  subst c'. repeat split.
  - unfold BidirectionalStream.Write, bind, get, UINVARIANT, ret.
    cbn [BidirectionalStream.is_finished_ negb].
    rewrite Hhook. unfold try_catch, impl.Write, impl.raw_call.
    rewrite Hraw. reflexivity.
  - intros status t2 Hok. unfold_call. rewrite Hok.
    destruct (kEnableAssert env); reflexivity.
Qed.

(** C10, as stated, fails for [FinishWithError]: after an interrupted
    [Write] it returns normally and silently instead of aborting. *)
Lemma FinishWithError_after_interrupted_Write_returns :
  BidirectionalStream.Write Scenario.interrupted "pong"
    BidirectionalStream.init [] =
    Threw RpcInterruptedError (BidirectionalStream.mk false true)
      [EvResponseHook "pong";
       EvRaw (OpWrite "pong" default_write_options)] /\
  BidirectionalStream.FinishWithError Scenario.interrupted
    Scenario.PERMISSION (BidirectionalStream.mk false true)
    [EvResponseHook "pong";
     EvRaw (OpWrite "pong" default_write_options)] =
    Returned tt (BidirectionalStream.mk false true)
      [EvResponseHook "pong";
       EvRaw (OpWrite "pong" default_write_options)] /\
  is_aborted
    (BidirectionalStream.FinishWithError Scenario.interrupted
       Scenario.PERMISSION (BidirectionalStream.mk false true)
       [EvResponseHook "pong";
        EvRaw (OpWrite "pong" default_write_options)]) = false.
Proof. repeat split. Qed.

(** * The properties at concrete calls *)

Lemma calm_is_reliable : forall assertions, reliable (Scenario.calm assertions).
Proof. intros assertions t op. reflexivity. Qed.

Lemma FinishWithError_on_finished_call_is_noop_witness :
  IsFinished kRequestStream (InputStream.mk InputStream.kFinished) = true /\
  ok Scenario.PERMISSION = false /\
  FinishWithError (Scenario.calm true) kRequestStream Scenario.PERMISSION
    (InputStream.mk InputStream.kFinished) [EvLogFinish Status_OK] =
    Returned tt (InputStream.mk InputStream.kFinished)
      [EvLogFinish Status_OK].
Proof.
  split; [reflexivity |]. split; [reflexivity |].
  destruct (FinishWithError_on_finished_call_is_noop
              (Scenario.calm true) kRequestStream Scenario.PERMISSION
              (InputStream.mk InputStream.kFinished)
              [EvLogFinish Status_OK] eq_refl) as (_ & _ & Hnoop).
  exact (Hnoop eq_refl).
Defined.

Lemma Finish_once_then_fatal_witness :
  IsFinished kUnaryCall UnaryCall.init = false /\
  reliable (Scenario.calm true) /\
  is_aborted (Finish (Scenario.calm true) kUnaryCall "R" UnaryCall.init [])
    = false /\
  IsFinished kUnaryCall
    (outcome_state
       (Finish (Scenario.calm true) kUnaryCall "R" UnaryCall.init []))
    = true /\
  (exists t',
     Finish (Scenario.calm true) kUnaryCall "R" UnaryCall.init [] =
       Returned tt
         (outcome_state
            (Finish (Scenario.calm true) kUnaryCall "R" UnaryCall.init []))
         t') /\
  Finish (Scenario.calm true) kUnaryCall "again"
    (outcome_state
       (Finish (Scenario.calm true) kUnaryCall "R" UnaryCall.init [])) []
    = Aborted (InvariantViolated (Finish_invariant_message kUnaryCall))
        (outcome_state
           (Finish (Scenario.calm true) kUnaryCall "R" UnaryCall.init []))
        [].
Proof.
  destruct (Finish_once_then_fatal (Scenario.calm true) kUnaryCall "R"
              UnaryCall.init [] eq_refl) as (H1 & H2 & H3 & H4 & _).
  split; [reflexivity |]. split; [apply calm_is_reliable |].
  split; [exact H1 |]. split; [exact H2 |]. split.
  - apply H3; [apply calm_is_reliable | exists "R"; reflexivity].
  - apply H4.
Defined.

Lemma UnaryCall_Finish_success_witness :
  UnaryCall.IsFinished UnaryCall.init = false /\
  response_hook (Scenario.calm true) "R" = HookOk "R" /\
  raw_result (Scenario.calm true)
    ([] ++ [EvResponseHook "R"; EvLogFinish Status_OK])
    (OpFinishWithResponse "R" Status_OK) = None /\
  UnaryCall.Finish (Scenario.calm true) "R" UnaryCall.init [] =
    Returned tt (UnaryCall.mk true)
      ([] ++ [EvResponseHook "R"; EvLogFinish Status_OK;
              EvRaw (OpFinishWithResponse "R" Status_OK);
              EvExplicitFinish OK; EvSpanStatus Status_OK]).
Proof.
  do 3 (split; [reflexivity |]).
  apply (UnaryCall_Finish_success (Scenario.calm true) UnaryCall.init []
           "R" "R"); reflexivity.
Defined.

Lemma InputStream_Read_contract_witness :
  InputStream.Read (Scenario.one_request "ping") "" InputStream.init [] =
    Returned (true, "ping") (InputStream.mk InputStream.kOpen)
      ([] ++ [EvRaw OpRead; EvRequestHook "ping"]) /\
  InputStream.Read (Scenario.calm true) "" InputStream.init [] =
    Returned (false, "") (InputStream.mk InputStream.kReadsDone)
      ([] ++ [EvRaw OpRead]) /\
  InputStream.Read (Scenario.calm true) ""
    (InputStream.mk InputStream.kReadsDone) [EvRaw OpRead] =
    Aborted
      (InvariantViolated
         "'Read' called while the stream is half-closed for reads")
      (InputStream.mk InputStream.kReadsDone) [EvRaw OpRead].
Proof.
  split; [| split].
  - destruct (InputStream_Read_contract (Scenario.one_request "ping")
                InputStream.init [] "") as (Hread & _ & _).
    apply Hread; reflexivity.
  - destruct (InputStream_Read_contract (Scenario.calm true)
                InputStream.init [] "") as (_ & Hend & _).
    apply Hend; reflexivity.
  - destruct (InputStream_Read_contract (Scenario.calm true)
                (InputStream.mk InputStream.kReadsDone) [EvRaw OpRead] "")
      as (_ & _ & Hfatal).
    apply Hfatal. cbn. discriminate.
Defined.

Lemma WriteAndFinish_versus_Write_then_Finish_witness :
  OutputStream.IsFinished OutputStream.init = false /\
  reliable (Scenario.calm true) /\
  response_hook (Scenario.calm true) "event" = HookOk "event" /\
  exists separate combined : Trace,
    OutputStream.handler (Scenario.calm true)
      [OutputStream.DoWrite "event"; OutputStream.DoFinish]
      OutputStream.init [] =
      Returned tt (OutputStream.mk OutputStream.kFinished)
        ([] ++ separate) /\
    OutputStream.WriteAndFinish (Scenario.calm true) "event"
      OutputStream.init [] =
      Returned tt (OutputStream.mk OutputStream.kFinished)
        ([] ++ combined) /\
    recorded separate = recorded combined /\
    transport_operations combined = 1 /\
    transport_operations separate = 3.
Proof.
  split; [reflexivity |]. split; [apply calm_is_reliable |].
  split; [reflexivity |].
  destruct (WriteAndFinish_versus_Write_then_Finish (Scenario.calm true)
              OutputStream.init [] "event" "event" eq_refl
              (calm_is_reliable true) eq_refl)
    as (separate & combined & H1 & H2 & H3 & _ & H5 & H6).
  exists separate, combined. repeat split; assumption.
Defined.

Lemma BidirectionalStream_Read_leaves_finished_flag_witness :
  BidirectionalStream.are_reads_done_ BidirectionalStream.init = false /\
  raw_read Scenario.interrupted_quietly [] = ReadEnd /\
  BidirectionalStream.Read Scenario.interrupted_quietly ""
    BidirectionalStream.init [] =
    Returned (false, "") (BidirectionalStream.mk true false)
      ([] ++ [EvRaw OpRead]) /\
  BidirectionalStream.is_finished_
    (outcome_state
       (BidirectionalStream.Read Scenario.interrupted_quietly ""
          BidirectionalStream.init [])) = false.
Proof.
  split; [reflexivity |]. split; [reflexivity |].
  destruct (BidirectionalStream_Read_leaves_finished_flag
              Scenario.interrupted_quietly BidirectionalStream.init [] ""
              eq_refl) as (Hflag & Hend & _ & _).
  split; [exact (Hend eq_refl) | exact Hflag].
Defined.

Lemma BidirectionalStream_Write_interrupted_witness :
  BidirectionalStream.is_finished_ BidirectionalStream.init = false /\
  BidirectionalStream.hook_if_message Scenario.interrupted "pong"
    BidirectionalStream.init [] =
    Returned "pong" BidirectionalStream.init [EvResponseHook "pong"] /\
  raw_result Scenario.interrupted [EvResponseHook "pong"]
    (OpWrite "pong" default_write_options) = Some RpcInterruptedError /\
  BidirectionalStream.Write Scenario.interrupted "pong"
    BidirectionalStream.init [] =
    Threw RpcInterruptedError
      (BidirectionalStream.set_is_finished BidirectionalStream.init)
      ([EvResponseHook "pong"] ++
       [EvRaw (OpWrite "pong" default_write_options)]) /\
  BidirectionalStream.Finish Scenario.interrupted
    (BidirectionalStream.set_is_finished BidirectionalStream.init) [] =
    Aborted (InvariantViolated "'Finish' called on a finished stream")
      (BidirectionalStream.set_is_finished BidirectionalStream.init) [].
Proof.
  do 3 (split; [reflexivity |]).
  destruct (BidirectionalStream_Write_interrupted Scenario.interrupted
              BidirectionalStream.init [] "pong" "pong"
              [EvResponseHook "pong"] eq_refl eq_refl eq_refl)
    as (Hthrown & _ & _ & Hlater & _).
  split; [exact Hthrown |].
  destruct (Hlater "pong" []) as (_ & Hfinish & _). exact Hfinish.
Defined.

(** * Properties of a whole scope *)

Ltac unfold_scope :=
  cbv beta iota zeta delta
    [Handler.perform Handler.Request owed forward InputStream_rank
     OutputStream_rank] in *;
  unfold_call.

(** Splits on the environment and on the exception a handler inspects. *)
Ltac ask_all :=
  repeat
    (ask_env ||
     match goal with
     | |- context [match ?e with RpcInterruptedError => _ | _ => _ end] =>
         is_var e; destruct e
     end).

Ltac by_cases kind request c :=
  destruct kind; cbn [Facade] in c; cbn [Handler.Request] in request;
  destruct request;
  repeat match goal with
         | x : UnaryCall.t |- _ => destruct x as [[]]
         | x : InputStream.t |- _ => destruct x as [[]]
         | x : OutputStream.t |- _ => destruct x as [[]]
         | x : BidirectionalStream.t |- _ => destruct x as [[] []]
         end;
  unfold_scope; ask_all.

(** A relation between the call before and after that every member
    function keeps also holds across a handler body. *)
Lemma handler_invariant :
  forall env kind
         (R : Facade kind -> Trace -> Facade kind -> Trace -> Prop),
    (forall c t, R c t c t) ->
    (forall c1 t1 c2 t2 c3 t3,
       R c1 t1 c2 t2 -> R c2 t2 c3 t3 -> R c1 t1 c3 t3) ->
    (forall request c t,
       R c t (outcome_state (Handler.perform env kind request c t))
             (outcome_trace (Handler.perform env kind request c t))) ->
    forall body c t,
      R c t (outcome_state (Handler.handler env kind body c t))
            (outcome_trace (Handler.handler env kind body c t)).
Proof.
  intros env kind R Hrefl Htrans Hstep body.
  induction body as [| request rest IH]; intros c t.
  - apply Hrefl.
  - cbn [Handler.handler]. unfold bind.
    specialize (Hstep request c t).
    destruct (Handler.perform env kind request c t) as [[] c' t' | |];
      cbn [outcome_state outcome_trace] in *; trivial.
    eapply Htrans; [exact Hstep | apply IH].
Qed.

Lemma perform_log_owed :
  forall env kind request (c : Facade kind) t,
    count is_log (outcome_trace (Handler.perform env kind request c t))
      + owed kind (outcome_state (Handler.perform env kind request c t))
    <= count is_log t + owed kind c.
Proof.
  intros env kind request c t.
  by_cases kind request c; rewrite ?count_app; cbn; lia.
Qed.

Lemma perform_log_owed_stream :
  forall env kind request (c : Facade kind) t,
    kind = kRequestStream \/ kind = kResponseStream ->
    count is_log (outcome_trace (Handler.perform env kind request c t))
      + owed kind (outcome_state (Handler.perform env kind request c t))
    = count is_log t + owed kind c.
Proof.
  intros env kind request c t [-> | ->].
  - cbn [Facade] in c; cbn [Handler.Request] in request.
    destruct request, c as [[]]; unfold_scope; ask_all;
      rewrite ?count_app; cbn; lia.
  - cbn [Facade] in c; cbn [Handler.Request] in request.
    destruct request, c as [[]]; unfold_scope; ask_all;
      rewrite ?count_app; cbn; lia.
Qed.

Lemma perform_statistics_owed :
  forall env kind request (c : Facade kind) t,
    count is_statistics
        (outcome_trace (Handler.perform env kind request c t))
      + owed kind (outcome_state (Handler.perform env kind request c t))
    <= count is_statistics t + owed kind c.
Proof.
  intros env kind request c t.
  by_cases kind request c; rewrite ?count_app; cbn; lia.
Qed.

Lemma perform_span_owed :
  forall env kind request (c : Facade kind) t,
    count is_span (outcome_trace (Handler.perform env kind request c t))
      + owed kind (outcome_state (Handler.perform env kind request c t))
    <= count is_span t + owed kind c.
Proof.
  intros env kind request c t.
  by_cases kind request c; rewrite ?count_app; cbn; lia.
Qed.

Lemma perform_closing_owed :
  forall env kind request (c : Facade kind) t,
    count is_closing (outcome_trace (Handler.perform env kind request c t))
      + owed kind (outcome_state (Handler.perform env kind request c t))
    <= count is_closing t + owed kind c.
Proof.
  intros env kind request c t.
  by_cases kind request c; rewrite ?count_app; cbn; lia.
Qed.

(** What the destructor adds for each kind of event. *)
Lemma destructor_effect :
  forall kind (c : Facade kind) t,
    exists t',
      destructor kind c t = Returned tt c t' /\
      count is_log t' = count is_log t + owed kind c /\
      count is_closing t' = count is_closing t + owed kind c /\
      count is_statistics t' = count is_statistics t /\
      count is_span t' = count is_span t.
Proof.
  intros kind c t.
  destruct kind; cbn [Facade] in c;
    repeat match goal with
           | x : UnaryCall.t |- _ => destruct x as [[]]
           | x : InputStream.t |- _ => destruct x as [[]]
           | x : OutputStream.t |- _ => destruct x as [[]]
           | x : BidirectionalStream.t |- _ => destruct x as [[] []]
           end;
    unfold_scope; eexists; (split; [reflexivity |]);
    rewrite ?count_app; cbn; lia.
Qed.

(** The trace a scope leaves, from the trace its handler body left. *)
Lemma scope_trace :
  forall env kind body (c : Facade kind) t,
    is_aborted (Handler.scope env kind body c t) = false ->
    outcome_trace (Handler.scope env kind body c t) =
    outcome_trace
      (destructor kind
         (outcome_state (Handler.handler env kind body c t))
         (outcome_trace (Handler.handler env kind body c t))).
Proof.
  intros env kind body c t. unfold Handler.scope.
  destruct (Handler.handler env kind body c t) as [[] c' t' | e c' t' | ];
    cbn [outcome_state outcome_trace is_aborted]; try discriminate;
    destruct (destructor_effect kind c' t') as (t'' & -> & _); reflexivity.
Qed.

Lemma scope_aborted_trace :
  forall env kind body (c : Facade kind) t,
    is_aborted (Handler.scope env kind body c t) = true ->
    outcome_trace (Handler.scope env kind body c t) =
    outcome_trace (Handler.handler env kind body c t).
Proof.
  intros env kind body c t. unfold Handler.scope.
  destruct (Handler.handler env kind body c t) as [[] c' t' | e c' t' | ];
    cbn [outcome_state outcome_trace is_aborted]; try reflexivity;
    destruct (destructor_effect kind c' t') as (t'' & -> & _);
    discriminate.
Qed.

(** A bound on how often a scope produces events of one sort, from the
    bound kept by every member function. *)
Lemma scope_bound :
  forall (p : Event -> bool) env kind,
    (forall request (c : Facade kind) t,
       count p (outcome_trace (Handler.perform env kind request c t))
         + owed kind (outcome_state (Handler.perform env kind request c t))
       <= count p t + owed kind c) ->
    (forall (c : Facade kind) t,
       count p (outcome_trace (destructor kind c t))
       <= count p t + owed kind c) ->
    forall body (c : Facade kind) t,
      count p (outcome_trace (Handler.scope env kind body c t))
      <= count p t + owed kind c.
Proof.
  intros p env kind Hstep Hexit body c t.
  pose proof
    (handler_invariant env kind
       (fun c t c' t' => count p t' + owed kind c' <= count p t + owed kind c)
       (fun c t => le_n _)
       (fun c1 t1 c2 t2 c3 t3 H12 H23 => Nat.le_trans _ _ _ H23 H12)
       Hstep body c t) as Hbody.
  cbn beta in Hbody.
  destruct (is_aborted (Handler.scope env kind body c t)) eqn:Hab.
  - rewrite scope_aborted_trace by assumption. lia.
  - rewrite scope_trace by assumption.
    specialize
      (Hexit (outcome_state (Handler.handler env kind body c t))
             (outcome_trace (Handler.handler env kind body c t))).
    lia.
Qed.

(** X1. Over a whole scope, handler body then destructor, a
    client-streaming or a server-streaming call that was not aborted
    writes exactly one finish line to the log, whatever the handler
    does and however the transport and the hooks behave. *)
Theorem stream_scope_logs_exactly_once :
  forall env kind body (c : Facade kind) t,
    kind = kRequestStream \/ kind = kResponseStream ->
    IsFinished kind c = false ->
    is_aborted (Handler.scope env kind body c t) = false ->
    count is_log (outcome_trace (Handler.scope env kind body c t)) =
    count is_log t + 1.
Proof.
  intros env kind body c t Hkind Hopen Hlive.
  rewrite scope_trace by assumption.
  pose proof
    (handler_invariant env kind
       (fun c t c' t' =>
          count is_log t' + owed kind c' = count is_log t + owed kind c)
       (fun c t => eq_refl)
       (fun c1 t1 c2 t2 c3 t3 H12 H23 => eq_trans H23 H12)
       (fun request c t => perform_log_owed_stream env kind request c t Hkind)
       body c t) as Hbody.
  cbn beta in Hbody.
  destruct (destructor_effect kind
              (outcome_state (Handler.handler env kind body c t))
              (outcome_trace (Handler.handler env kind body c t)))
    as (t' & -> & Hlog & _).
  cbn [outcome_trace]. rewrite Hlog, Hbody. unfold owed. rewrite Hopen.
  reflexivity.
Qed.

(** X2. Over a whole scope of any of the four facades, each sink
    receives at most one terminal record: at most one log line, one
    statistics event and one span status, and none at all when the call
    was already finished at the start. *)
Theorem scope_accounts_at_most_once :
  forall env kind body (c : Facade kind) t,
    count is_log (outcome_trace (Handler.scope env kind body c t))
      <= count is_log t + owed kind c /\
    count is_statistics (outcome_trace (Handler.scope env kind body c t))
      <= count is_statistics t + owed kind c /\
    count is_span (outcome_trace (Handler.scope env kind body c t))
      <= count is_span t + owed kind c.
Proof.
  intros env kind body c t. repeat split.
  - apply scope_bound; [apply perform_log_owed |].
    intros c0 t0. destruct (destructor_effect kind c0 t0)
      as (t' & -> & H & _). cbn [outcome_trace]. lia.
  - apply scope_bound; [apply perform_statistics_owed |].
    intros c0 t0. destruct (destructor_effect kind c0 t0)
      as (t' & -> & _ & _ & H & _). cbn [outcome_trace]. lia.
  - apply scope_bound; [apply perform_span_owed |].
    intros c0 t0. destruct (destructor_effect kind c0 t0)
      as (t' & -> & _ & _ & _ & H). cbn [outcome_trace]. lia.
Qed.

(** X3. Over a whole scope of any of the four facades, the raw stream
    is asked at most once to end the call: the finishing operations and
    the cancellations together occur at most once, and never on a call
    that was already finished at the start. *)
Theorem scope_closes_raw_stream_at_most_once :
  forall env kind body (c : Facade kind) t,
    count is_closing (outcome_trace (Handler.scope env kind body c t))
      <= count is_closing t + owed kind c.
Proof.
  intros env kind body c t.
  apply scope_bound; [apply perform_closing_owed |].
  intros c0 t0. destruct (destructor_effect kind c0 t0)
    as (t' & -> & _ & H & _). cbn [outcome_trace]. lia.
Qed.

Lemma destructor_of_finished :
  forall kind (c : Facade kind) t,
    IsFinished kind c = true -> destructor kind c t = Returned tt c t.
Proof.
  intros kind c t Hfin.
  destruct kind; cbn [Facade] in c;
    repeat match goal with
           | x : UnaryCall.t |- _ => destruct x as [[]]
           | x : InputStream.t |- _ => destruct x as [[]]
           | x : OutputStream.t |- _ => destruct x as [[]]
           | x : BidirectionalStream.t |- _ => destruct x as [[] []]
           end;
    unfold_scope; try discriminate; reflexivity.
Qed.

Lemma scope_state :
  forall env kind body (c : Facade kind) t,
    outcome_state (Handler.scope env kind body c t) =
    outcome_state (Handler.handler env kind body c t).
Proof.
  intros env kind body c t. unfold Handler.scope.
  destruct (Handler.handler env kind body c t) as [[] c' t' | e c' t' | ];
    cbn [outcome_state]; try reflexivity;
    destruct (destructor_effect kind c' t') as (t'' & -> & _); reflexivity.
Qed.

Lemma perform_on_finished :
  forall env kind request (c : Facade kind) t,
    IsFinished kind c = true ->
    IsFinished kind (outcome_state (Handler.perform env kind request c t))
      = true /\
    accounting_events
      (outcome_trace (Handler.perform env kind request c t))
      = accounting_events t /\
    count is_outbound
      (outcome_trace (Handler.perform env kind request c t))
      = count is_outbound t.
Proof.
  intros env kind request c t Hfin.
  by_cases kind request c; try discriminate;
    unfold accounting_events; rewrite ?filter_app, ?count_app; cbn;
    rewrite ?app_nil_r, ?Nat.add_0_r; repeat split.
Qed.

(** X4. Once a call is finished, nothing a handler does with it for the
    rest of the scope reaches a sink or the writing direction of the raw
    stream: the call stays finished, and no log line, statistics event,
    span status, write, finish or cancellation is added, by the handler
    or by the destructor. *)
Theorem finished_call_stays_silent :
  forall env kind body (c : Facade kind) t,
    IsFinished kind c = true ->
    IsFinished kind (outcome_state (Handler.scope env kind body c t))
      = true /\
    accounting_events (outcome_trace (Handler.scope env kind body c t))
      = accounting_events t /\
    count is_outbound (outcome_trace (Handler.scope env kind body c t))
      = count is_outbound t.
Proof.
  intros env kind body c t Hfin.
  pose proof
    (handler_invariant env kind
       (fun c t c' t' =>
          IsFinished kind c = true ->
          IsFinished kind c' = true /\
          accounting_events t' = accounting_events t /\
          count is_outbound t' = count is_outbound t)
       (fun c t H => conj H (conj eq_refl eq_refl))) as Hinv.
  cbn beta in Hinv.
  destruct (Hinv
    (fun c1 t1 c2 t2 c3 t3 H12 H23 H1 =>
       match H12 H1 with
       | conj H2 (conj Ha Hb) =>
           match H23 H2 with
           | conj H3 (conj Ha' Hb') =>
               conj H3 (conj (eq_trans Ha' Ha) (eq_trans Hb' Hb))
           end
       end)
    (perform_on_finished env kind) body c t Hfin) as (Hfin' & Hacc & Hout).
  rewrite scope_state. split; [exact Hfin' |].
  assert (Htrace :
    outcome_trace (Handler.scope env kind body c t) =
    outcome_trace (Handler.handler env kind body c t)).
  { destruct (is_aborted (Handler.scope env kind body c t)) eqn:Hab.
    - now apply scope_aborted_trace.
    - rewrite scope_trace by assumption.
      now rewrite destructor_of_finished. }
  rewrite Htrace. split; assumption.
Qed.

Lemma forward_refl : forall kind (c : Facade kind), forward kind c c = true.
Proof.
  intros kind c. destruct kind; cbn [Facade] in c;
    repeat match goal with
           | x : UnaryCall.t |- _ => destruct x as [[]]
           | x : InputStream.t |- _ => destruct x as [[]]
           | x : OutputStream.t |- _ => destruct x as [[]]
           | x : BidirectionalStream.t |- _ => destruct x as [[] []]
           end; reflexivity.
Qed.

Lemma forward_trans :
  forall kind (c1 c2 c3 : Facade kind),
    forward kind c1 c2 = true -> forward kind c2 c3 = true ->
    forward kind c1 c3 = true.
Proof.
  intros kind c1 c2 c3. destruct kind; cbn [Facade] in c1, c2, c3;
    repeat match goal with
           | x : UnaryCall.t |- _ => destruct x as [[]]
           | x : InputStream.t |- _ => destruct x as [[]]
           | x : OutputStream.t |- _ => destruct x as [[]]
           | x : BidirectionalStream.t |- _ => destruct x as [[] []]
           end; cbn; intros; congruence.
Qed.

Lemma perform_forward :
  forall env kind request (c : Facade kind) t,
    forward kind c (outcome_state (Handler.perform env kind request c t))
      = true.
Proof.
  intros env kind request c t.
  by_cases kind request c; reflexivity.
Qed.

(** X5. The state of a facade only moves forward over a scope: a unary
    call never becomes unfinished again, a client stream goes from open
    to reads-done to finished and a server stream from new to open to
    finished without ever stepping back, and each of the two flags of a
    bidirectional stream stays set once it is set. *)
Theorem phases_only_move_forward :
  forall env kind body (c : Facade kind) t,
    forward kind c (outcome_state (Handler.scope env kind body c t)) = true.
Proof.
  intros env kind body c t. rewrite scope_state.
  exact
    (handler_invariant env kind
       (fun c _ c' _ => forward kind c c' = true)
       (fun c _ => forward_refl kind c)
       (fun c1 _ c2 _ c3 _ => forward_trans kind c1 c2 c3)
       (perform_forward env kind) body c t).
Qed.

(** ** Rejected responses and failing finishes *)

(** X6. When the response hook raises inside [UnaryCall::Finish], the
    call has already been marked finished and nothing has been logged
    yet: the scope ends with the exception and leaves no log line, no
    statistics event, no span status and no operation on the raw stream,
    not even the cancellation of the destructor. *)
Theorem UnaryCall_rejected_response_leaves_no_record :
  forall env response (rest : list (Handler.Request kUnaryCall)) e t,
    response_hook env response = HookThrows e ->
    Handler.scope env kUnaryCall (Handler.UnaryFinish response :: rest)
      UnaryCall.init t =
      Threw e (UnaryCall.mk true) (t ++ [EvResponseHook response]).
Proof.
  intros env response rest e t Hhook.
  unfold Handler.scope. cbn [Handler.handler]. unfold UnaryCall.init.
  unfold_scope. rewrite Hhook. reflexivity.
Qed.

(** X7. The three streaming facades log the success before they run the
    response hook: when the hook raises inside [InputStream::Finish],
    [OutputStream::WriteAndFinish] or
    [BidirectionalStream::WriteAndFinish], the scope ends with the
    exception, the log holds a success line, and nothing was sent,
    counted or cancelled. *)
Theorem rejected_response_is_logged_as_success :
  forall env response e t,
    response_hook env response = HookThrows e ->
    (forall rest,
       Handler.scope env kRequestStream
         (Handler.InputFinish response :: rest) InputStream.init t =
         Threw e (InputStream.mk InputStream.kFinished)
           (t ++ [EvLogFinish Status_OK; EvResponseHook response])) /\
    (forall rest,
       Handler.scope env kResponseStream
         (OutputStream.DoWriteAndFinish response :: rest)
         OutputStream.init t =
         Threw e (OutputStream.mk OutputStream.kFinished)
           (t ++ [EvLogFinish Status_OK; EvResponseHook response])) /\
    (response_is_message env = true ->
     forall rest,
       Handler.scope env kBidirectionalStream
         (Handler.BidiWriteAndFinish response :: rest)
         BidirectionalStream.init t =
         Threw e (BidirectionalStream.mk false true)
           (t ++ [EvLogFinish Status_OK; EvResponseHook response])).
Proof.
  intros env response e t Hhook. repeat split.
  - intros rest. unfold Handler.scope. cbn [Handler.handler].
    unfold InputStream.init. unfold_scope. rewrite Hhook. tidy_trace.
    reflexivity.
  - intros rest. unfold Handler.scope. cbn [Handler.handler].
    unfold OutputStream.init. unfold_scope. rewrite Hhook. tidy_trace.
    reflexivity.
  - intros Hmsg rest. unfold Handler.scope. cbn [Handler.handler].
    unfold BidirectionalStream.init. unfold_scope. rewrite Hmsg, Hhook.
    tidy_trace. reflexivity.
Qed.

(** X8. On a call that is not finished, with a non-success status and a
    transport that completes the operation, [FinishWithError] of every
    facade finishes the call with one operation on the raw stream, which
    carries the status and no payload, and records the status once in
    the log, once in the statistics scope as its code, and once in the
    span; it never sends the opening metadata. *)
Theorem FinishWithError_records_status_once :
  forall env kind status (c : Facade kind) t,
    IsFinished kind c = false ->
    ok status = false ->
    reliable env ->
    exists c' added,
      FinishWithError env kind status c t = Returned tt c' (t ++ added) /\
      IsFinished kind c' = true /\
      recorded added =
        mkRecorded [] [status] [EvLogFinish status]
          [EvExplicitFinish (error_code status)] [EvSpanStatus status] /\
      transport_operations added = 1 /\
      count is_metadata_send added = 0.
Proof.
  intros env kind status c t Hopen Hok Hrel.
  destruct kind; cbn [Facade] in c;
    repeat match goal with
           | x : UnaryCall.t |- _ => destruct x as [[]]
           | x : InputStream.t |- _ => destruct x as [[]]
           | x : OutputStream.t |- _ => destruct x as [[]]
           | x : BidirectionalStream.t |- _ => destruct x as [[] []]
           end;
    unfold_scope; try discriminate; rewrite ?Hok, ?Hrel;
    try (destruct (kEnableAssert env); rewrite ?Hrel);
    tidy_trace; eexists; eexists; (split; [reflexivity |]);
    repeat split.
Qed.

(** X9. When [FinishWithError] of any facade raises on a call that was
    not finished, the call is finished all the same and the status is in
    the log, but neither the statistics scope nor the span has received
    it, and the destructor will not make up for it: it does nothing. *)
Theorem FinishWithError_raising_is_logged_not_counted :
  forall env kind status (c c' : Facade kind) t t' e,
    IsFinished kind c = false ->
    FinishWithError env kind status c t = Threw e c' t' ->
    IsFinished kind c' = true /\
    filter is_log t' = filter is_log t ++ [EvLogFinish status] /\
    filter is_statistics t' = filter is_statistics t /\
    filter is_span t' = filter is_span t /\
    (forall t2, destructor kind c' t2 = Returned tt c' t2).
Proof.
  intros env kind status c c' t t' e Hopen.
  destruct kind; cbn [Facade] in c, c';
    repeat match goal with
           | x : Facade _ |- _ => cbn [Facade] in x
           | x : UnaryCall.t |- _ => destruct x as [[]]
           | x : InputStream.t |- _ => destruct x as [[]]
           | x : OutputStream.t |- _ => destruct x as [[]]
           | x : BidirectionalStream.t |- _ => destruct x as [[] []]
           end;
    unfold_scope; try discriminate; ask_all; intros H; inversion H;
    subst; rewrite ?filter_app; cbn; rewrite ?app_nil_r; repeat split.
Qed.

(** ** Reading and writing *)

(** X10. [Read] of a client stream and of a bidirectional stream is
    confined to the reading direction: in every state and however it
    ends, it leaves the finished status of the call as it was, reaches
    no sink and asks nothing of the writing direction of the raw
    stream. *)
Theorem Read_is_confined_to_its_direction :
  forall env request t,
    (forall c : InputStream.t,
       InputStream.IsFinished
         (outcome_state (InputStream.Read env request c t))
         = InputStream.IsFinished c /\
       accounting_events (outcome_trace (InputStream.Read env request c t))
         = accounting_events t /\
       count is_outbound (outcome_trace (InputStream.Read env request c t))
         = count is_outbound t) /\
    (forall c : BidirectionalStream.t,
       BidirectionalStream.IsFinished
         (outcome_state (BidirectionalStream.Read env request c t))
         = BidirectionalStream.IsFinished c /\
       accounting_events
         (outcome_trace (BidirectionalStream.Read env request c t))
         = accounting_events t /\
       count is_outbound
         (outcome_trace (BidirectionalStream.Read env request c t))
         = count is_outbound t).
Proof.
  intros env request t. split.
  - intros [[]]; unfold_scope; ask_all;
      unfold accounting_events; rewrite ?filter_app, ?count_app; cbn;
      rewrite ?app_nil_r, ?Nat.add_0_r; repeat split.
  - intros [[] []]; unfold_scope; ask_all;
      unfold accounting_events; rewrite ?filter_app, ?count_app; cbn;
      rewrite ?app_nil_r, ?Nat.add_0_r; repeat split.
Qed.

(** X11. The contract checks of a bidirectional stream look at one flag
    each: [Read] is rejected exactly when reads are done, also on a
    finished call; [Write], [Finish] and [WriteAndFinish] are rejected
    exactly when the call is finished, also after end-of-input; and
    [FinishWithError] stops exactly when assertions are compiled in and
    the status is a success. *)
Theorem BidirectionalStream_contract_checks :
  forall env (c : BidirectionalStream.t) t message status,
    is_aborted (BidirectionalStream.Read env message c t)
      = BidirectionalStream.are_reads_done_ c /\
    is_aborted (BidirectionalStream.Write env message c t)
      = BidirectionalStream.is_finished_ c /\
    is_aborted (BidirectionalStream.Finish env c t)
      = BidirectionalStream.is_finished_ c /\
    is_aborted (BidirectionalStream.WriteAndFinish env message c t)
      = BidirectionalStream.is_finished_ c /\
    is_aborted (BidirectionalStream.FinishWithError env status c t)
      = kEnableAssert env && ok status.
Proof.
  intros env [[] []] t message status; repeat split;
    unfold_scope; ask_all; reflexivity.
Qed.

(** X12. A failure of the raw write other than [RpcInterruptedError]
    leaves a bidirectional stream unfinished as it passes through
    [Write], so that the destructor still cancels the raw stream and
    logs the unknown-error status. *)
Theorem BidirectionalStream_Write_other_failure :
  forall env (c : BidirectionalStream.t) t response response' t1 e,
    BidirectionalStream.is_finished_ c = false ->
    BidirectionalStream.hook_if_message env response c t =
      Returned response' c t1 ->
    raw_result env t1 (OpWrite response' default_write_options) = Some e ->
    e <> RpcInterruptedError ->
    BidirectionalStream.Write env response c t =
      Threw e c (t1 ++ [EvRaw (OpWrite response' default_write_options)]) /\
    (forall t2,
       BidirectionalStream.destructor c t2 =
         Returned tt c
           (t2 ++ [EvRaw OpCancel; EvLogFinish kUnknownErrorStatus])).
Proof.
  intros env [reads finished] t response response' t1 e Hopen Hhook Hraw He.
  cbn [BidirectionalStream.is_finished_] in Hopen. subst finished. split.
  - unfold BidirectionalStream.Write, bind, get, UINVARIANT, ret.
    cbn [BidirectionalStream.is_finished_ negb].
    rewrite Hhook. unfold try_catch, impl.Write, impl.raw_call.
    rewrite Hraw. destruct e; [congruence | reflexivity | reflexivity].
  - intros t2. unfold_scope. tidy_trace. reflexivity.
Qed.

(** X13. [OutputStream::Write] never finishes the stream and never
    reaches a sink; when it raises, whatever the failure, the rest of the
    handler is skipped and the destructor cancels the raw stream and
    logs the unknown-error status. *)
Theorem OutputStream_Write_failure_is_cancelled :
  forall env response rest (c c' : OutputStream.t) t t' e,
    OutputStream.IsFinished c = false ->
    OutputStream.Write env response c t = Threw e c' t' ->
    OutputStream.IsFinished c' = false /\
    accounting_events t' = accounting_events t /\
    Handler.scope env kResponseStream
      (OutputStream.DoWrite response :: rest) c t =
      Threw e c' (t' ++ [EvRaw OpCancel; EvLogFinish kUnknownErrorStatus]).
Proof.
  intros env response rest [state] [state'] t t' e Hopen Hthrew.
  unfold Handler.scope. cbn [Handler.handler]. unfold bind at 1.
  cbn [Handler.perform OutputStream.perform]. rewrite Hthrew.
  revert Hthrew.
  destruct state, state'; unfold_scope; try discriminate; ask_all;
    intros H; inversion H; subst;
    unfold accounting_events; rewrite ?filter_app; cbn;
    rewrite ?app_nil_r; tidy_trace; repeat split.
Qed.

Lemma writes_on_open_stream :
  forall env f responses tail t,
    reliable env ->
    (forall r, response_hook env r = HookOk (f r)) ->
    OutputStream.handler env
      (map OutputStream.DoWrite responses ++ tail)
      (OutputStream.mk OutputStream.kOpen) t =
    OutputStream.handler env tail (OutputStream.mk OutputStream.kOpen)
      (t ++ written f responses).
Proof.
  intros env f responses tail t Hrel Hhook. revert t.
  induction responses as [| r rest IH]; intros t.
  - cbn. now rewrite app_nil_r.
  - cbn [map app OutputStream.handler]. unfold bind at 1.
    assert (Hwrite :
      OutputStream.perform env (OutputStream.DoWrite r)
        (OutputStream.mk OutputStream.kOpen) t =
      Returned tt (OutputStream.mk OutputStream.kOpen)
        (t ++ [EvResponseHook r;
               EvRaw (OpWrite (f r) default_write_options)])).
    { unfold_call. rewrite Hhook, Hrel. tidy_trace. reflexivity. }
    rewrite Hwrite, IH. f_equal.
    change (written f (r :: rest)) with
      ([EvResponseHook r; EvRaw (OpWrite (f r) default_write_options)]
         ++ written f rest).
    rewrite <- app_assoc. reflexivity.
Qed.

Lemma written_read_back :
  forall f responses tail,
    sent_messages (written f responses ++ tail) =
      map f responses ++ sent_messages tail /\
    count is_raw (written f responses ++ tail) =
      List.length responses + count is_raw tail /\
    count is_metadata_send (written f responses ++ tail) =
      count is_metadata_send tail /\
    accounting_events (written f responses ++ tail) =
      accounting_events tail.
Proof.
  intros f responses tail.
  induction responses as [| r rest (IH1 & IH2 & IH3 & IH4)].
  - repeat split.
  - change (written f (r :: rest)) with
      ([EvResponseHook r; EvRaw (OpWrite (f r) default_write_options)]
         ++ written f rest).
    rewrite <- app_assoc. cbn [app]. repeat split.
    + cbn [sent_messages map app]. now rewrite IH1.
    + unfold count in *. cbn [filter is_raw List.length]. now rewrite IH2.
    + unfold count in *. cbn [filter is_metadata_send]. exact IH3.
    + unfold accounting_events in *. cbn [filter is_accounting]. exact IH4.
Qed.

(** X14. On a reliable transport with a hook that accepts every
    response, a server-streaming handler that writes any number of
    responses and then finishes returns with the stream finished; the
    raw stream has received the responses as the hook left them, in the
    order written, none lost and none repeated, the opening metadata
    once if anything was written and not at all otherwise, and one
    finish; each sink has one success record. *)
Theorem writes_then_Finish_deliver_in_order :
  forall env f responses t,
    reliable env ->
    (forall r, response_hook env r = HookOk (f r)) ->
    exists added,
      OutputStream.handler env
        (map OutputStream.DoWrite responses ++ [OutputStream.DoFinish])
        OutputStream.init t =
        Returned tt (OutputStream.mk OutputStream.kFinished) (t ++ added) /\
      sent_messages added = map f responses /\
      sent_statuses added = [Status_OK] /\
      count is_metadata_send added =
        match responses with [] => 0 | _ => 1 end /\
      transport_operations added =
        List.length responses + 1 +
        match responses with [] => 0 | _ => 1 end /\
      accounting_events added =
        [EvLogFinish Status_OK; EvExplicitFinish OK; EvSpanStatus Status_OK].
Proof.
  intros env f responses t Hrel Hhook.
  set (closing := [EvLogFinish Status_OK; EvRaw (OpFinish Status_OK);
                   EvExplicitFinish OK; EvSpanStatus Status_OK]).
  assert (Hfinish : forall state t0,
    state <> OutputStream.kFinished ->
    OutputStream.handler env [OutputStream.DoFinish]
      (OutputStream.mk state) t0 =
    Returned tt (OutputStream.mk OutputStream.kFinished) (t0 ++ closing)).
  { intros state t0 Hstate. cbn [OutputStream.handler].
    destruct state; [| | congruence]; unfold_call; rewrite Hrel;
      tidy_trace; reflexivity. }
  assert (Hstatuses : forall rs tail,
    sent_statuses (written f rs ++ tail) = sent_statuses tail).
  { induction rs as [| r rs IH]; intros tail; [reflexivity |].
    change (written f (r :: rs)) with
      ([EvResponseHook r; EvRaw (OpWrite (f r) default_write_options)]
         ++ written f rs).
    rewrite <- app_assoc. cbn [app sent_statuses]. apply IH. }
  destruct responses as [| r rest].
  - exists closing. cbn [map app]. unfold OutputStream.init.
    rewrite Hfinish by discriminate. repeat split.
  - exists (EvRaw OpSendInitialMetadata :: written f (r :: rest) ++ closing).
    split.
    + cbn [map app OutputStream.handler]. unfold bind at 1.
      assert (Hfirst :
        OutputStream.perform env (OutputStream.DoWrite r)
          OutputStream.init t =
        Returned tt (OutputStream.mk OutputStream.kOpen)
          (t ++ [EvRaw OpSendInitialMetadata; EvResponseHook r;
                 EvRaw (OpWrite (f r) default_write_options)])).
      { unfold OutputStream.init. unfold_call.
        rewrite Hrel, Hhook, Hrel. tidy_trace. reflexivity. }
      rewrite Hfirst, (writes_on_open_stream env f rest) by assumption.
      rewrite Hfinish by discriminate. f_equal.
      change (written f (r :: rest)) with
        ([EvResponseHook r; EvRaw (OpWrite (f r) default_write_options)]
           ++ written f rest).
      rewrite <- !app_assoc. reflexivity.
    + destruct (written_read_back f (r :: rest) closing)
        as (Hmsg & Hraw & Hmeta & Hacc).
      repeat split.
      * cbn [sent_messages]. rewrite Hmsg. cbn. now rewrite app_nil_r.
      * cbn [sent_statuses]. rewrite Hstatuses. reflexivity.
      * unfold count in *. cbn [filter is_metadata_send List.length].
        rewrite Hmeta. reflexivity.
      * unfold transport_operations, count in *.
        cbn [filter is_raw List.length]. rewrite Hraw. cbn. lia.
      * unfold accounting_events in *. cbn [filter is_accounting].
        rewrite Hacc. reflexivity.
Qed.

(** X15. On a bidirectional stream that is not finished, with a reliable
    transport and an accepting hook, [WriteAndFinish] and [Write]
    followed by [Finish] both return and leave the same flags and the
    same recorded result; the payload is the response as the hook left
    it, or the response itself when its type is not a protobuf message
    and the hook is skipped. [WriteAndFinish] asks one operation of the
    raw stream and the separate calls two, in either state of the
    reading direction. *)
Theorem BidirectionalStream_WriteAndFinish_versus_Write_then_Finish :
  forall env (c : BidirectionalStream.t) t response response',
    BidirectionalStream.is_finished_ c = false ->
    reliable env ->
    response_hook env response = HookOk response' ->
    exists separate combined : Trace,
      Handler.handler env kBidirectionalStream
        [Handler.BidiWrite response; Handler.BidiFinish] c t =
        Returned tt (BidirectionalStream.set_is_finished c)
          (t ++ separate) /\
      BidirectionalStream.WriteAndFinish env response c t =
        Returned tt (BidirectionalStream.set_is_finished c)
          (t ++ combined) /\
      recorded separate = recorded combined /\
      recorded combined =
        mkRecorded
          [if response_is_message env then response' else response]
          [Status_OK] [EvLogFinish Status_OK]
          [EvExplicitFinish OK] [EvSpanStatus Status_OK] /\
      transport_operations combined = 1 /\
      transport_operations separate = 2.
Proof.
  intros env [reads finished] t response response' Hopen Hrel Hhook.
  cbn [BidirectionalStream.is_finished_] in Hopen. subst finished.
  cbn [Handler.handler]. unfold_scope.
  destruct (response_is_message env).
  - rewrite !Hhook, !Hrel. tidy_trace.
    eexists; eexists; (split; [reflexivity |]); (split; [reflexivity |]).
    repeat split.
  - rewrite !Hrel. tidy_trace.
    eexists; eexists; (split; [reflexivity |]); (split; [reflexivity |]).
    repeat split.
Qed.

(** * The scope properties at concrete calls *)

Lemma stream_scope_logs_exactly_once_witness :
  (kResponseStream = kRequestStream \/ kResponseStream = kResponseStream) /\
  IsFinished kResponseStream OutputStream.init = false /\
  is_aborted
    (Handler.scope Scenario.interrupted kResponseStream
       [OutputStream.DoWrite "event"; OutputStream.DoFinish]
       OutputStream.init []) = false /\
  count is_log
    (outcome_trace
       (Handler.scope Scenario.interrupted kResponseStream
          [OutputStream.DoWrite "event"; OutputStream.DoFinish]
          OutputStream.init [])) = count is_log [] + 1.
Proof.
  split; [right; reflexivity |]. split; [reflexivity |].
  split; [reflexivity |].
  apply (stream_scope_logs_exactly_once Scenario.interrupted
           kResponseStream
           [OutputStream.DoWrite "event"; OutputStream.DoFinish]
           OutputStream.init []);
    [right; reflexivity | reflexivity | reflexivity].
Defined.

Lemma finished_call_stays_silent_witness :
  IsFinished kBidirectionalStream (BidirectionalStream.mk false true)
    = true /\
  accounting_events
    (outcome_trace
       (Handler.scope (Scenario.one_request "ping") kBidirectionalStream
          [Handler.BidiRead "";
           Handler.BidiFinishWithError Scenario.PERMISSION;
           Handler.BidiWrite "late"]
          (BidirectionalStream.mk false true) [EvLogFinish Status_OK]))
    = accounting_events [EvLogFinish Status_OK] /\
  count is_outbound
    (outcome_trace
       (Handler.scope (Scenario.one_request "ping") kBidirectionalStream
          [Handler.BidiRead "";
           Handler.BidiFinishWithError Scenario.PERMISSION;
           Handler.BidiWrite "late"]
          (BidirectionalStream.mk false true) [EvLogFinish Status_OK]))
    = count is_outbound [EvLogFinish Status_OK].
Proof.
  split; [reflexivity |].
  destruct (finished_call_stays_silent (Scenario.one_request "ping")
              kBidirectionalStream
              [Handler.BidiRead "";
               Handler.BidiFinishWithError Scenario.PERMISSION;
               Handler.BidiWrite "late"]
              (BidirectionalStream.mk false true) [EvLogFinish Status_OK]
              eq_refl) as (_ & Hacc & Hout).
  split; [exact Hacc | exact Hout].
Defined.

Lemma UnaryCall_rejected_response_leaves_no_record_witness :
  response_hook Failure.hook_rejects "R" = HookThrows HookRejected /\
  Handler.scope Failure.hook_rejects kUnaryCall
    [Handler.UnaryFinish "R"] UnaryCall.init [] =
    Threw HookRejected (UnaryCall.mk true) ([] ++ [EvResponseHook "R"]).
Proof.
  split; [reflexivity |].
  apply (UnaryCall_rejected_response_leaves_no_record
           Failure.hook_rejects "R" [] HookRejected []).
  reflexivity.
Defined.

Lemma rejected_response_is_logged_as_success_witness :
  response_hook Failure.hook_rejects "R" = HookThrows HookRejected /\
  Handler.scope Failure.hook_rejects kRequestStream
    [Handler.InputFinish "R"] InputStream.init [] =
    Threw HookRejected (InputStream.mk InputStream.kFinished)
      ([] ++ [EvLogFinish Status_OK; EvResponseHook "R"]) /\
  Handler.scope Failure.hook_rejects kBidirectionalStream
    [Handler.BidiWriteAndFinish "R"] BidirectionalStream.init [] =
    Threw HookRejected (BidirectionalStream.mk false true)
      ([] ++ [EvLogFinish Status_OK; EvResponseHook "R"]).
Proof.
  split; [reflexivity |].
  destruct (rejected_response_is_logged_as_success Failure.hook_rejects
              "R" HookRejected [] eq_refl) as (Hinput & _ & Hbidi).
  split; [apply Hinput | apply Hbidi; reflexivity].
Defined.

Lemma FinishWithError_records_status_once_witness :
  IsFinished kResponseStream OutputStream.init = false /\
  ok Scenario.PERMISSION = false /\
  reliable (Scenario.calm true) /\
  exists c' added,
    FinishWithError (Scenario.calm true) kResponseStream
      Scenario.PERMISSION OutputStream.init [] =
      Returned tt c' ([] ++ added) /\
    IsFinished kResponseStream c' = true /\
    recorded added =
      mkRecorded [] [Scenario.PERMISSION] [EvLogFinish Scenario.PERMISSION]
        [EvExplicitFinish PERMISSION_DENIED]
        [EvSpanStatus Scenario.PERMISSION].
Proof.
  split; [reflexivity |]. split; [reflexivity |].
  split; [apply calm_is_reliable |].
  destruct (FinishWithError_records_status_once (Scenario.calm true)
              kResponseStream Scenario.PERMISSION OutputStream.init []
              eq_refl eq_refl (calm_is_reliable true))
    as (c' & added & H1 & H2 & H3 & _).
  exists c', added. repeat split; assumption.
Defined.

Lemma FinishWithError_raising_is_logged_not_counted_witness :
  IsFinished kUnaryCall UnaryCall.init = false /\
  FinishWithError Failure.finish_fails kUnaryCall Scenario.PERMISSION
    UnaryCall.init [] =
    Threw RpcError (UnaryCall.mk true)
      [EvLogFinish Scenario.PERMISSION;
       EvRaw (OpFinishWithError Scenario.PERMISSION)] /\
  filter is_statistics
    [EvLogFinish Scenario.PERMISSION;
     EvRaw (OpFinishWithError Scenario.PERMISSION)] =
    filter is_statistics [] /\
  destructor kUnaryCall (UnaryCall.mk true) [] =
    Returned tt (UnaryCall.mk true) [].
Proof.
  split; [reflexivity |]. split; [reflexivity |].
  destruct (FinishWithError_raising_is_logged_not_counted
              Failure.finish_fails kUnaryCall Scenario.PERMISSION
              UnaryCall.init (UnaryCall.mk true) []
              [EvLogFinish Scenario.PERMISSION;
               EvRaw (OpFinishWithError Scenario.PERMISSION)]
              RpcError eq_refl eq_refl) as (_ & _ & Hstat & _ & Hexit).
  split; [exact Hstat | apply Hexit].
Defined.

Lemma BidirectionalStream_Write_other_failure_witness :
  BidirectionalStream.is_finished_ BidirectionalStream.init = false /\
  BidirectionalStream.hook_if_message Failure.write_fails "pong"
    BidirectionalStream.init [] =
    Returned "pong" BidirectionalStream.init [EvResponseHook "pong"] /\
  raw_result Failure.write_fails [EvResponseHook "pong"]
    (OpWrite "pong" default_write_options) = Some RpcError /\
  RpcError <> RpcInterruptedError /\
  BidirectionalStream.Write Failure.write_fails "pong"
    BidirectionalStream.init [] =
    Threw RpcError BidirectionalStream.init
      ([EvResponseHook "pong"] ++
       [EvRaw (OpWrite "pong" default_write_options)]).
Proof.
  do 3 (split; [reflexivity |]). split; [discriminate |].
  destruct (BidirectionalStream_Write_other_failure Failure.write_fails
              BidirectionalStream.init [] "pong" "pong"
              [EvResponseHook "pong"] RpcError eq_refl eq_refl eq_refl)
    as (Hthrown & _); [discriminate | exact Hthrown].
Defined.

Lemma OutputStream_Write_failure_is_cancelled_witness :
  OutputStream.IsFinished OutputStream.init = false /\
  OutputStream.Write Failure.write_fails "event" OutputStream.init [] =
    Threw RpcError (OutputStream.mk OutputStream.kOpen)
      [EvRaw OpSendInitialMetadata; EvResponseHook "event";
       EvRaw (OpWrite "event" default_write_options)] /\
  Handler.scope Failure.write_fails kResponseStream
    [OutputStream.DoWrite "event"; OutputStream.DoFinish]
    OutputStream.init [] =
    Threw RpcError (OutputStream.mk OutputStream.kOpen)
      ([EvRaw OpSendInitialMetadata; EvResponseHook "event";
        EvRaw (OpWrite "event" default_write_options)] ++
       [EvRaw OpCancel; EvLogFinish kUnknownErrorStatus]).
Proof.
  split; [reflexivity |]. split; [reflexivity |].
  destruct (OutputStream_Write_failure_is_cancelled Failure.write_fails
              "event" [OutputStream.DoFinish] OutputStream.init
              (OutputStream.mk OutputStream.kOpen) []
              [EvRaw OpSendInitialMetadata; EvResponseHook "event";
               EvRaw (OpWrite "event" default_write_options)]
              RpcError eq_refl eq_refl) as (_ & _ & Hscope).
  exact Hscope.
Defined.

Lemma writes_then_Finish_deliver_in_order_witness :
  reliable (Scenario.calm true) /\
  (forall r, response_hook (Scenario.calm true) r = HookOk r) /\
  exists added,
    OutputStream.handler (Scenario.calm true)
      (map OutputStream.DoWrite ["a"; "b"; "c"] ++ [OutputStream.DoFinish])
      OutputStream.init [] =
      Returned tt (OutputStream.mk OutputStream.kFinished) ([] ++ added) /\
    sent_messages added = map (fun r => r) ["a"; "b"; "c"] /\
    count is_metadata_send added = 1 /\
    transport_operations added = 3 + 1 + 1.
Proof.
  split; [apply calm_is_reliable |]. split; [reflexivity |].
  destruct (writes_then_Finish_deliver_in_order (Scenario.calm true)
              (fun r => r) ["a"; "b"; "c"] [] (calm_is_reliable true)
              (fun r => eq_refl))
    as (added & H1 & H2 & _ & H4 & H5 & _).
  exists added. repeat split; assumption.
Defined.

Lemma BidirectionalStream_WriteAndFinish_versus_Write_then_Finish_witness :
  BidirectionalStream.is_finished_ BidirectionalStream.init = false /\
  reliable (Scenario.calm true) /\
  response_hook (Scenario.calm true) "last" = HookOk "last" /\
  exists separate combined : Trace,
    Handler.handler (Scenario.calm true) kBidirectionalStream
      [Handler.BidiWrite "last"; Handler.BidiFinish]
      BidirectionalStream.init [] =
      Returned tt
        (BidirectionalStream.set_is_finished BidirectionalStream.init)
        ([] ++ separate) /\
    BidirectionalStream.WriteAndFinish (Scenario.calm true) "last"
      BidirectionalStream.init [] =
      Returned tt
        (BidirectionalStream.set_is_finished BidirectionalStream.init)
        ([] ++ combined) /\
    recorded separate = recorded combined /\
    transport_operations combined = 1 /\
    transport_operations separate = 2.
Proof.
  split; [reflexivity |]. split; [apply calm_is_reliable |].
  split; [reflexivity |].
  destruct (BidirectionalStream_WriteAndFinish_versus_Write_then_Finish
              (Scenario.calm true) BidirectionalStream.init [] "last" "last"
              eq_refl (calm_is_reliable true) eq_refl)
    as (separate & combined & H1 & H2 & H3 & _ & H5 & H6).
  exists separate, combined. repeat split; assumption.
Defined.
